(** * RiskMetrics: liquidation / insolvency VaR and recommended leverage

    A shallow embedding of [RiskMetrics.py] (class [RiskMetrics]).

    Numbers.  A numpy [float64] is modelled by [float64] below: a finite
    value is an exact rational, and the three IEEE special values are kept,
    because the source relies on them ([dropna] removes NaN, a division by a
    zero baseline yields an infinity, [int] rejects NaN and infinities).
    Rounding and the sign of zero are abstracted away, and so is overflow,
    except in the sums of [fsum], where it decides the result.

    Effects.  Python exceptions are the [Raise] branch of [result].  Methods
    that mutate the instance or consume Python's global [random] generator
    run in the state-and-exception monad [M] over a [World].

    Libraries.  The routines the module imports from numpy, arch and the
    Python standard library are the fields of the class [Runtime]. *)

From Stdlib Require Import String.
From Stdlib Require Import QArith Qabs Qround ZArith List Bool Lia Lqa.
Import ListNotations.

(** ** Python exceptions *)

Inductive exn : Type :=
| TypeError
| KeyError
| IndexError
| ValueError
| OverflowError.

Inductive result (A : Type) : Type :=
| Ok (a : A)
| Raise (e : exn).

Arguments Ok {A} a.
Arguments Raise {A} e.

Definition rbind {A B} (r : result A) (k : A -> result B) : result B :=
  match r with
  | Ok a => k a
  | Raise e => Raise e
  end.

Declare Scope res_scope.
Delimit Scope res_scope with res.
Notation "x <- e ;; k" := (rbind e (fun x => k))
  (at level 61, e at next level, right associativity) : res_scope.

(** ** numpy float64 *)

Inductive float64 : Type :=
| Fin (q : Q)
| PInf
| NInf
| NaN.

Definition is_nan (x : float64) : bool :=
  match x with NaN => true | _ => false end.

Definition is_finite (x : float64) : bool :=
  match x with Fin _ => true | _ => false end.

Definition finite (x : float64) : Prop := is_finite x = true.

(** [inf_signed c] is the infinity whose sign is the comparison of a finite
    value with zero; a zero sign gives NaN. *)
Definition inf_signed (c : comparison) : float64 :=
  match c with Gt => PInf | Lt => NInf | Eq => NaN end.

Definition flip (c : comparison) : comparison := CompOpp c.

Definition fneg (x : float64) : float64 :=
  match x with
  | Fin q => Fin (- q)
  | PInf => NInf
  | NInf => PInf
  | NaN => NaN
  end.

Definition fadd (x y : float64) : float64 :=
  match x, y with
  | NaN, _ | _, NaN => NaN
  | Fin a, Fin b => Fin (a + b)
  | PInf, NInf | NInf, PInf => NaN
  | PInf, _ | _, PInf => PInf
  | NInf, _ | _, NInf => NInf
  end.

Definition fsub (x y : float64) : float64 :=
  match x, y with
  | NaN, _ | _, NaN => NaN
  | Fin a, Fin b => Fin (a - b)
  | PInf, PInf | NInf, NInf => NaN
  | PInf, _ | _, NInf => PInf
  | NInf, _ | _, PInf => NInf
  end.

Definition fmul (x y : float64) : float64 :=
  match x, y with
  | NaN, _ | _, NaN => NaN
  | Fin a, Fin b => Fin (a * b)
  | PInf, Fin b | Fin b, PInf => inf_signed (b ?= 0)
  | NInf, Fin b | Fin b, NInf => inf_signed (flip (b ?= 0))
  | PInf, PInf | NInf, NInf => PInf
  | PInf, NInf | NInf, PInf => NInf
  end.

(** numpy division: a zero divisor gives an infinity (or NaN for 0/0) and
    never raises. *)
Definition fdiv (x y : float64) : float64 :=
  match x, y with
  | NaN, _ | _, NaN => NaN
  | Fin a, Fin b =>
      match b ?= 0 with
      | Eq => inf_signed (a ?= 0)
      | _ => Fin (a / b)
      end
  | Fin _, _ => Fin 0
  | PInf, Fin b => match b ?= 0 with Lt => NInf | _ => PInf end
  | NInf, Fin b => match b ?= 0 with Lt => PInf | _ => NInf end
  | _, _ => NaN
  end.

Definition fabs (x : float64) : float64 :=
  match x with
  | Fin q => Fin (Qabs q)
  | PInf | NInf => PInf
  | NaN => NaN
  end.

Definition Qltb (a b : Q) : bool := negb (Qle_bool b a).

(** [x < y], false as soon as an operand is NaN. *)
Definition flt (x y : float64) : bool :=
  match x, y with
  | NaN, _ | _, NaN => false
  | Fin a, Fin b => Qltb a b
  | NInf, NInf | PInf, _ | _, NInf => false
  | NInf, _ | _, PInf => true
  end.

(** [x <= y], false as soon as an operand is NaN. *)
Definition fle (x y : float64) : bool :=
  match x, y with
  | NaN, _ | _, NaN => false
  | Fin a, Fin b => Qle_bool a b
  | NInf, _ | _, PInf => true
  | _, _ => false
  end.

(** Equality of values (the representation of a finite value as a fraction
    is not unique). *)
Definition feq (x y : float64) : Prop :=
  match x, y with
  | Fin a, Fin b => a == b
  | PInf, PInf | NInf, NInf | NaN, NaN => True
  | _, _ => False
  end.

Definition feqb (x y : float64) : bool :=
  match x, y with
  | Fin a, Fin b => Qeq_bool a b
  | PInf, PInf | NInf, NInf | NaN, NaN => true
  | _, _ => false
  end.

(** ** pandas Series and DataFrame *)

Definition Series : Type := list float64.

(** [s.iloc[0]] *)
Definition iloc_first (s : Series) : result float64 :=
  match s with
  | [] => Raise IndexError
  | x :: _ => Ok x
  end.

(** [s.iloc[-1]] *)
Definition iloc_last (s : Series) : result float64 :=
  match rev s with
  | [] => Raise IndexError
  | x :: _ => Ok x
  end.

(** [scalar - s], [s + scalar], [s / scalar]: broadcast over the series. *)
Definition scalar_sub (c : float64) (s : Series) : Series := map (fsub c) s.
Definition add_scalar (s : Series) (c : float64) : Series :=
  map (fun x => fadd x c) s.
Definition div_scalar (s : Series) (c : float64) : Series :=
  map (fun x => fdiv x c) s.

(** [s.dropna()] *)
Definition dropna (s : Series) : Series :=
  filter (fun x => negb (is_nan x)) s.

(** The slice [l[:stop]] of Python sequences. *)
Definition slice_to {A} (stop : Z) (l : list A) : list A :=
  if (0 <=? stop)%Z
  then firstn (Z.to_nat stop) l
  else firstn (Z.to_nat (Z.of_nat (length l) + stop)) l.

(** A DataFrame is its columns, in order, each under its label. *)
Definition DataFrame : Type := list (string * Series).

(** [len(df)] *)
Definition df_len (df : DataFrame) : nat :=
  match df with
  | [] => 0%nat
  | (_, s) :: _ => length s
  end.

(** [df[label]] *)
Fixpoint df_getitem (df : DataFrame) (label : string) : result Series :=
  match df with
  | [] => Raise KeyError
  | (c, s) :: rest => if String.eqb c label then Ok s else df_getitem rest label
  end.

(** [df.iloc[:stop]] *)
Definition df_iloc_to (stop : Z) (df : DataFrame) : DataFrame :=
  map (fun cs => (fst cs, slice_to stop (snd cs))) df.

(** ** The RiskMetrics instance *)

Record RiskMetrics : Type := mkRiskMetrics {
  self_z_scores : list (Z * float64);
  self_pool_size : Z;
  self_df : DataFrame;
  self_notional : float64;
  self_liquidation_series : Series;
  self_margin_series : Series;
  self_pnl_series : Series;
  self_liquidation : Series;
  self_insolvency : Series
}.

Definition z_scores_table : list (Z * float64) :=
  [(95%Z, Fin 1.96); (99%Z, Fin 2.58)].

(** [liquidation(self)] *)
Definition liquidation (self : RiskMetrics) : result Series :=
  (m0 <- iloc_first (self_margin_series self) ;;
   let num := scalar_sub m0 (self_liquidation_series self) in
   m0' <- iloc_first (self_margin_series self) ;;
   Ok (div_scalar num m0'))%res.

(** [insolvency(self)] *)
Definition insolvency (self : RiskMetrics) : result Series :=
  (m0 <- iloc_first (self_margin_series self) ;;
   let num := add_scalar (self_pnl_series self) m0 in
   m0' <- iloc_first (self_margin_series self) ;;
   Ok (div_scalar num m0'))%res.

Definition set_liquidation (self : RiskMetrics) (s : Series) : RiskMetrics :=
  mkRiskMetrics (self_z_scores self) (self_pool_size self) (self_df self)
    (self_notional self) (self_liquidation_series self)
    (self_margin_series self) (self_pnl_series self) s (self_insolvency self).

Definition set_insolvency (self : RiskMetrics) (s : Series) : RiskMetrics :=
  mkRiskMetrics (self_z_scores self) (self_pool_size self) (self_df self)
    (self_notional self) (self_liquidation_series self)
    (self_margin_series self) (self_pnl_series self) (self_liquidation self) s.

(** [__init__(self, df, notional, liquidation_series, margin_series,
    pnl_series, pool_size=None)].  The three series are read from the
    argument [df], the attribute [self.df] holds the truncated table. *)
Definition __init__ (df : DataFrame) (notional : float64)
    (liquidation_series margin_series pnl_series : string)
    (pool_size : option Z) : result RiskMetrics :=
  let '(size, kept) :=
    match pool_size with
    | None => (Z.of_nat (df_len df), df)
    | Some n => (n, df_iloc_to n df)
    end in
  (ls <- df_getitem df liquidation_series ;;
   ms <- df_getitem df margin_series ;;
   ps <- df_getitem df pnl_series ;;
   let self := mkRiskMetrics z_scores_table size kept notional ls ms ps [] [] in
   lq <- liquidation self ;;
   let self := set_liquidation self lq in
   ins <- insolvency self ;;
   Ok (set_insolvency self ins))%res.

(** ** Python and numpy helpers *)

(** [d[k]] on a dict with integer keys. *)
Fixpoint dict_get (d : list (Z * float64)) (k : Z) : result float64 :=
  match d with
  | [] => Raise KeyError
  | (k', v) :: rest => if (k' =? k)%Z then Ok v else dict_get rest k
  end.

(** [int(x)] on a float: truncation toward zero; NaN and the infinities are
    rejected. *)
Definition py_int (x : float64) : result Z :=
  match x with
  | Fin q => Ok (Z.quot (Qnum q) (Z.pos (Qden q)))
  | NaN => Raise ValueError
  | PInf | NInf => Raise OverflowError
  end.

(** The block size handed to the bootstrap: [int(time_delta) + 1]. *)
Definition block_size_of (time_delta : float64) : result Z :=
  (n <- py_int time_delta ;; Ok (n + 1)%Z)%res.

(** Binding of keyword arguments to the parameters of a function whose
    parameters all default to [None]: a keyword that names no parameter is a
    [TypeError]. *)
Definition kwargs : Type := list (string * option float64).

Definition accepts (params : list string) (kw : kwargs) : bool :=
  forallb (fun kv => existsb (String.eqb (fst kv)) params) kw.

Fixpoint kwarg (name : string) (kw : kwargs) : option float64 :=
  match kw with
  | [] => None
  | (n, v) :: rest => if String.eqb n name then v else kwarg name rest
  end.

(** The least magnitude that a float64 operation rounds to an infinity,
    [2^1024 - 2^970]. *)
Definition overflow_threshold : Q := inject_Z (2 ^ 1024 - 2 ^ 970).

(** What float64 keeps of an exact result: an infinity once the magnitude
    reaches the overflow threshold. *)
Definition saturate (x : float64) : float64 :=
  match x with
  | Fin q =>
      if Qle_bool overflow_threshold (Qabs q) then inf_signed (q ?= 0) else x
  | _ => x
  end.

(** [a.sum()]: the samples are added from the first to the last, and a
    partial sum that leaves the range of float64 becomes an infinity.
    (numpy adds arrays of eight samples or more in blocks; the order of the
    additions matters only when a partial sum overflows, which
    [sum_in_range] below excludes for every order.) *)
Definition fsum (a : list float64) : float64 :=
  fold_left (fun acc x => saturate (fadd acc x)) a (Fin 0).




(** [a.mean()] *)
Definition np_mean (a : list float64) : float64 :=
  fdiv (fsum a) (Fin (inject_Z (Z.of_nat (length a)))).

(** The value of the jitter: [significand * 10**exp] with
    [significand = 0.9 * r + 0.1], for the two draws [exp] and [r]. *)
Definition jitter_value (exp : Z) (r : Q) : Q :=
  let significand := 0.9 * r + 0.1 in
  significand * 10 ^ exp.

(** ** Library routines

    [RandomState seed] and [randint high] are numpy's seeded generator and
    one draw of an integer below [high] from it; [random_randint] and
    [random_random] are the functions [randint] and [random] of Python's
    global [random] generator, whose state is [py_state];
    [optimal_block_length x] is the entry ["circular"] of arch's estimate for
    [x]; [np_sqrt] is the square root of a finite non-negative float. *)
Class Runtime : Type := {
  rng_state : Type;
  RandomState : Z -> rng_state;
  randint : Z -> rng_state -> Z * rng_state;
  py_state : Type;
  random_randint : Z -> Z -> py_state -> Z * py_state;
  random_random : py_state -> Q * py_state;
  optimal_block_length : list float64 -> result float64;
  np_sqrt : Q -> Q
}.

Section Engine.

Context {RT : Runtime}.

Definition fsqrt (x : float64) : float64 :=
  match x with
  | Fin q => if Qltb q 0 then NaN else Fin (np_sqrt q)
  | PInf => PInf
  | NInf | NaN => NaN
  end.

(** [abs(x - mu) ** 2] *)
Definition sq_dev (mu x : float64) : float64 :=
  let d := fabs (fsub x mu) in fmul d d.

(** [a.std()]: the population standard deviation (ddof = 0). *)
Definition np_std (a : list float64) : float64 :=
  let mu := np_mean a in
  fsqrt (np_mean (map (sq_dev mu) a)).

(** *** The state-and-exception monad *)

Record World : Type := mkWorld {
  w_self : RiskMetrics;
  w_random : py_state
}.

Definition M (A : Type) : Type := World -> result A * World.

Definition ret {A} (a : A) : M A := fun w => (Ok a, w).

Definition raise {A} (e : exn) : M A := fun w => (Raise e, w).

Definition bind {A B} (m : M A) (k : A -> M B) : M B :=
  fun w =>
    match m w with
    | (Ok a, w') => k a w'
    | (Raise e, w') => (Raise e, w')
    end.

Definition lift {A} (r : result A) : M A := fun w => (r, w).

Definition get_self : M RiskMetrics := fun w => (Ok (w_self w), w).

Definition update_self (f : RiskMetrics -> RiskMetrics) : M unit :=
  fun w => (Ok tt, mkWorld (f (w_self w)) (w_random w)).

Definition with_random {A} (f : py_state -> A * py_state) : M A :=
  fun w => let (a, p) := f (w_random w) in (Ok a, mkWorld (w_self w) p).

Declare Scope M_scope.
Delimit Scope M_scope with M.
Notation "x <- e ;; k" := (bind e (fun x => k))
  (at level 61, e at next level, right associativity) : M_scope.

(** *** Jitter *)

(** [get_random()] *)
Definition get_random : M float64 :=
  (exp <- with_random (random_randint (-5) (-2)) ;;
   r <- with_random random_random ;;
   ret (Fin (jitter_value exp r)))%M.

(** [np.array([v + self.get_random() for v in values])] *)
Fixpoint jitter (values : Series) : M Series :=
  match values with
  | [] => ret []
  | v :: rest =>
      (o <- get_random ;;
       tl <- jitter rest ;;
       ret (fadd v o :: tl))%M
  end.

(** *** Circular block bootstrap *)

(** The block of [B] consecutive samples of [x] from index [start], the
    index wrapping from the end of [x] to its beginning. *)
Definition wrap_block (x : Series) (start : Z) (B : nat) : Series :=
  map (fun j =>
         nth (Z.to_nat ((start + Z.of_nat j) mod Z.of_nat (length x))) x NaN)
      (seq 0 B).

(** The number of blocks of length [B] it takes to reach length [L]. *)
Definition num_blocks (L B : nat) : nat := ((L + B - 1) / B)%nat.

(** [k] successive draws of a start index below [high]. *)
Fixpoint draw_starts (k : nat) (high : Z) (rs : rng_state)
    : list Z * rng_state :=
  match k with
  | O => ([], rs)
  | S k' =>
      let (s, rs1) := randint high rs in
      let (rest, rs2) := draw_starts k' high rs1 in
      (s :: rest, rs2)
  end.

(** One replicate: blocks drawn one after the other until the length of [x]
    is reached, the last one truncated. *)
Definition resample (x : Series) (B : nat) (rs : rng_state)
    : Series * rng_state :=
  let L := length x in
  let (starts, rs') := draw_starts (num_blocks L B) (Z.of_nat L) rs in
  (firstn L (flat_map (fun s => wrap_block x s B) starts), rs').

Fixpoint replicates (reps : nat) (x : Series) (B : nat) (rs : rng_state)
    : list Series * rng_state :=
  match reps with
  | O => ([], rs)
  | S reps' =>
      let (r, rs1) := resample x B rs in
      let (rest, rs2) := replicates reps' x B rs1 in
      (r :: rest, rs2)
  end.

(** Modelled from the spec: the circular block bootstrap of arch
    ([CircularBlockBootstrap(block_size, x, random_state).bootstrap(reps)]),
    which is not part of the repository.  For each of the [reps] replicates
    it draws start indices uniformly below the length of [x] from the
    generator it was given and appends the wrapping blocks of [block_size]
    samples until the replicate has the length of [x].  A block size below 1
    or an empty [x] is outside the spec; the model raises there. *)
Definition bootstrap (block_size : Z) (x : Series) (reps : Z) (rs : rng_state)
    : result (list Series * rng_state) :=
  if (reps <=? 0)%Z then Ok ([], rs)
  else if ((block_size <=? 0)%Z || (length x =? 0)%nat)%bool
       then Raise ValueError
       else Ok (replicates (Z.to_nat reps) x (Z.to_nat block_size) rs).

(** *** Replicates *)

Definition drop_invalid (self : RiskMetrics) : RiskMetrics :=
  set_insolvency
    (set_liquidation self (dropna (self_liquidation self)))
    (dropna (self_insolvency self)).

(** The part of [generate_replicates] after the jitter: block lengths, then
    the two bootstraps, which share the one generator [rs]. *)
Definition resample_both (rs : rng_state) (liq ins : Series) (N_replicates : Z)
    : result (list Series * list Series) :=
  (time_delta_l <- optimal_block_length liq ;;
   time_delta_i <- optimal_block_length ins ;;
   block_l <- block_size_of time_delta_l ;;
   block_i <- block_size_of time_delta_i ;;
   l <- bootstrap block_l liq N_replicates rs ;;
   i <- bootstrap block_i ins N_replicates (snd l) ;;
   Ok (fst l, fst i))%res.

(** [generate_replicates(self, N_replicates=100)] *)
Definition generate_replicates (N_replicates : Z)
    : M (list Series * list Series) :=
  (let rs := RandomState 42 in
   _ <- update_self drop_invalid ;;
   self <- get_self ;;
   liq <- jitter (self_liquidation self) ;;
   ins <- jitter (self_insolvency self) ;;
   lift (resample_both rs liq ins N_replicates))%M.

(** *** Value at risk *)

(** [lvar_and_ivar(self, alpha=95, l_rep=None, i_rep=None)] *)
Definition lvar_and_ivar (alpha : Z) (l_rep i_rep : option (list Series))
    : M (float64 * float64) :=
  (self <- get_self ;;
   z_score <- lift (dict_get (self_z_scores self) alpha) ;;
   reps <- match l_rep, i_rep with
           | Some l, Some i => ret (l, i)
           | _, _ => generate_replicates 100
           end ;;
   let l_dist := map np_mean (fst reps) in
   let i_dist := map np_mean (snd reps) in
   let l_mu := np_mean l_dist in
   let i_mu := np_mean i_dist in
   let l_sig := np_std l_dist in
   let i_sig := np_std i_dist in
   let l_var := fadd (fmul (fneg z_score) l_sig) l_mu in
   let i_var := fadd (fmul (fneg z_score) i_sig) i_mu in
   ret (l_var, i_var))%M.


(** *** Leverage *)

(** [leverages(self, l_var=None, i_var=None)] *)
Definition leverages (l_var i_var : option float64) : M (float64 * float64) :=
  (vars <- match l_var, i_var with
           | Some l, Some i => ret (l, i)
           | _, _ => lvar_and_ivar 95 None None
           end ;;
   self <- get_self ;;
   let l_num := fmul (self_notional self) (fsub (Fin 1) (fst vars)) in
   l0 <- lift (iloc_first (self_liquidation_series self)) ;;
   let l_lev := fdiv l_num l0 in
   let i_num := fmul (self_notional self) (fsub (snd vars) (Fin 1)) in
   p <- lift (iloc_last (self_pnl_series self)) ;;
   let i_lev := fdiv i_num p in
   ret (l_lev, i_lev))%M.

(** A call of [self.leverages] with the keyword arguments [kw]. *)
Definition call_leverages (kw : kwargs) : M (float64 * float64) :=
  if accepts ["l_var"; "i_var"]%string kw
  then leverages (kwarg "l_var" kw) (kwarg "i_var" kw)
  else raise TypeError.

(** [recommended_leverage(self, time_horizon=0)].  It calls
    [self.leverages(time_horizon=time_horizon)]. *)
Definition recommended_leverage (time_horizon : float64) : M float64 :=
  (levs <- call_leverages [("time_horizon"%string, Some time_horizon)] ;;
   if flt (fst levs) (snd levs) then ret (fst levs) else ret (snd levs))%M.

(** *** Notions used to state the properties *)

(** The [n] jitter values that [n] successive calls of [get_random] draw
    from the state [p] of Python's generator, and the state they leave. *)
Fixpoint offsets (n : nat) (p : py_state) : list Q * py_state :=
  match n with
  | O => ([], p)
  | S n' =>
      let (e, p1) := random_randint (-5) (-2) p in
      let (r, p2) := random_random p1 in
      let (rest, p3) := offsets n' p2 in
      (jitter_value e r :: rest, p3)
  end.

(** The series [values] with the offsets [os] added sample by sample. *)
Fixpoint jittered (values : Series) (os : list Q) : Series :=
  match values, os with
  | v :: values', o :: os' => fadd v (Fin o) :: jittered values' os'
  | _, _ => []
  end.

(** The block size [generate_replicates] derives for a jittered series. *)
Definition block_length (x : Series) : result Z :=
  (time_delta <- optimal_block_length x ;; block_size_of time_delta)%res.

(** The block length depends on the values of the samples only. *)
Definition estimate_respects_values : Prop :=
  forall x y : Series, Forall2 feq x y -> block_length x = block_length y.

(** The start index below [n] that [RandomState(42)] hands out after [k]
    earlier draws below [n]. *)
Definition next_start (n k : nat) : Z :=
  fst (randint (Z.of_nat n)
         (snd (draw_starts k (Z.of_nat n) (RandomState 42)))).

(** The number of samples [generate_replicates] jitters. *)
Definition jitter_count (self : RiskMetrics) : nat :=
  (length (dropna (self_liquidation self))
   + length (dropna (self_insolvency self)))%nat.

End Engine.

(** ** A small runtime to run the model on

    A linear congruential generator stands for numpy's, a counter for
    Python's global generator, the order of the first two samples for the
    block-length estimate and an integer square root on six decimals
    for the square root. *)

Definition lcg_next (s : Z) : Z := ((1103515245 * s + 12345) mod 2147483648)%Z.

Definition lcg_randint (high : Z) (s : Z) : Z * Z :=
  let s' := lcg_next s in ((s' / 4096) mod high, s')%Z.

Definition counter_randint (a b : Z) (p : Z) : Z * Z :=
  ((a + p mod (b - a + 1))%Z, (p + 1)%Z).

Definition counter_random (p : Z) : Q * Z :=
  (inject_Z (p mod 20) / 20, (p + 1)%Z).

Definition rising_estimate (x : list float64) : result float64 :=
  match x with
  | u :: v :: _ => Ok (Fin (if flt u v then 1 else 0))
  | _ => Ok (Fin 0)
  end.

Definition sqrt_6dp (q : Q) : Q :=
  inject_Z (Z.sqrt (Qnum q * 1000000000000 / Z.pos (Qden q))) / 1000000.

Definition small_runtime : Runtime := {|
  rng_state := Z;
  RandomState := fun seed => seed;
  randint := lcg_randint;
  py_state := Z;
  random_randint := counter_randint;
  random_random := counter_random;
  optimal_block_length := rising_estimate;
  np_sqrt := sqrt_6dp
|}.

(** The same runtime with an estimator that returns an infinite block
    length. *)
Definition unbounded_estimate_runtime : Runtime := {|
  rng_state := Z;
  RandomState := fun seed => seed;
  randint := lcg_randint;
  py_state := Z;
  random_randint := counter_randint;
  random_random := counter_random;
  optimal_block_length := fun _ => Ok PInf;
  np_sqrt := sqrt_6dp
|}.

(** The table of the spec's worked example. *)
Definition example_df : DataFrame :=
  [("margin"%string, map Fin [100; 100; 100; 100; 100]);
   ("liquidation"%string, map Fin [90; 85; 80; 75; 70]);
   ("pnl"%string, map Fin [0; -5; -10; -15; -20])].

Definition example_instance : result RiskMetrics :=
  __init__ example_df (Fin 1000) "liquidation" "margin" "pnl" None.

(** The raw samples that give the jittered ratios [xs] for the margin 1 and
    the offsets [os]: the liquidation sample [1 - (x - o)] and the PnL
    sample [x - o - 1]. *)
Fixpoint liquidation_for (xs os : list Q) : list Q :=
  match xs, os with
  | x :: xs', o :: os' => (1 - (x - o)) :: liquidation_for xs' os'
  | _, _ => []
  end.

Fixpoint pnl_for (xs os : list Q) : list Q :=
  match xs, os with
  | x :: xs', o :: os' => (x - o - 1) :: pnl_for xs' os'
  | _, _ => []
  end.

(** A table with the margin 1 in every row, and the instance built from
    it. *)
Definition unit_margin_df (ls ps : list Q) : DataFrame :=
  [("margin"%string, map (fun _ => Fin 1) ls);
   ("liquidation"%string, map Fin ls);
   ("pnl"%string, map Fin ps)].

Definition unit_margin_instance (ls ps : list Q) : RiskMetrics :=
  mkRiskMetrics z_scores_table
    (Z.of_nat (length (map (fun _ : Q => Fin 1) ls)))
    (unit_margin_df ls ps) (Fin 1000)
    (map Fin ls) (map (fun _ => Fin 1) ls) (map Fin ps)
    (map (fun l => Fin ((1 - l) / 1)) ls)
    (map (fun p => Fin ((p + 1) / 1)) ps).

(** A table of two rows with the margin 1, and the instance built from
    it. *)
Definition pair_df (l0 l1 p0 p1 : Q) : DataFrame :=
  [("margin"%string, [Fin 1; Fin 1]);
   ("liquidation"%string, [Fin l0; Fin l1]);
   ("pnl"%string, [Fin p0; Fin p1])].

Definition pair_instance (l0 l1 p0 p1 : Q) : RiskMetrics :=
  mkRiskMetrics z_scores_table 2 (pair_df l0 l1 p0 p1) (Fin 1000)
    [Fin l0; Fin l1] [Fin 1; Fin 1] [Fin p0; Fin p1]
    [Fin ((1 - l0) / 1); Fin ((1 - l1) / 1)]
    [Fin ((p0 + 1) / 1); Fin ((p1 + 1) / 1)].

(** Python's generator keeps its documented ranges: [randint(-5, -2)] lies
    in [-5, -2] and [random()] in [0, 1). *)
Definition random_in_range {RT : Runtime} : Prop :=
  (forall p, (-5 <= fst (random_randint (-5) (-2) p) <= -2)%Z) /\
  (forall p, 0 <= fst (random_random p) /\ fst (random_random p) < 1).

(** ** run_simulator.py: normalisation *)

Module run_simulator.

Inductive error : Type :=
| Builtin (e : exn)
| Exception (message : string).

Inductive outcome (A : Type) : Type :=
| Return (a : A)
| Fail (e : error).

Arguments Return {A} a.
Arguments Fail {A} e.

Definition builtin {A B} (r : result A) (k : A -> outcome B) : outcome B :=
  match r with
  | Ok a => k a
  | Raise e => Fail (Builtin e)
  end.

(** The larger and the smaller of two floats as numpy's reductions take
    them: NaN wins. *)
Definition fmax (x y : float64) : float64 :=
  match x, y with
  | NaN, _ | _, NaN => NaN
  | _, _ => if fle x y then y else x
  end.

Definition fmin (x y : float64) : float64 :=
  match x, y with
  | NaN, _ | _, NaN => NaN
  | _, _ => if fle x y then x else y
  end.

(** [array.max()] and [array.min()]; an empty array has neither. *)
Definition np_max (array : list float64) : result float64 :=
  match array with
  | [] => Raise ValueError
  | x :: rest => Ok (fold_left fmax rest x)
  end.

Definition np_min (array : list float64) : result float64 :=
  match array with
  | [] => Raise ValueError
  | x :: rest => Ok (fold_left fmin rest x)
  end.

(** [x != y]; true as soon as an operand is NaN. *)
Definition fne (x y : float64) : bool :=
  match x, y with
  | NaN, _ | _, NaN => true
  | _, _ => negb (feqb x y)
  end.

(** [normalise(array)] *)
Definition normalise (array : list float64) : outcome (list float64) :=
  builtin (np_max array) (fun mx =>
  builtin (np_min array) (fun mn =>
  if fne mx mn then
    builtin (np_min array) (fun lo =>
    let num := map (fun x => fsub x lo) array in
    builtin (np_max array) (fun hi =>
    builtin (np_min array) (fun lo' =>
    Return (map (fun x => fdiv x (fsub hi lo')) num))))
  else
    Fail (Exception
      "ERROR: minimum and maximum values coincide in array normalisation. Check inputs!"))).

End run_simulator.

(** * Properties *)

(** ** Arithmetic of finite values *)

Lemma Qcompare_neq_0 (b : Q) : ~ b == 0 -> (b ?= 0) <> Eq.
Proof. intros H E. apply H. now apply Qeq_alt. Qed.

Lemma fdiv_fin (a b : Q) : ~ b == 0 -> fdiv (Fin a) (Fin b) = Fin (a / b).
Proof.
  intros H. unfold fdiv.
  destruct (b ?= 0) eqn:E; try reflexivity.
  now apply Qcompare_neq_0 in H.
Qed.


Lemma feqb_feq (x y : float64) : feqb x y = true <-> feq x y.
Proof.
  destruct x, y; simpl; try (split; [discriminate | contradiction]);
    try tauto.
  apply Qeq_bool_iff.
Qed.

Lemma forallb2_feq (a b : list float64) :
  length a = length b ->
  forallb (fun xy => feqb (fst xy) (snd xy)) (combine a b) = true ->
  Forall2 feq a b.
Proof.
  revert b. induction a as [|x a IH]; intros [|y b] L H; try discriminate.
  - constructor.
  - simpl in H. apply andb_true_iff in H as [H1 H2].
    constructor; [now apply feqb_feq | apply IH; auto].
Qed.

(** ** Derived series *)

Section Derivation.

Variable self : RiskMetrics.
Variables (m : Q) (rest : Series).
Hypothesis margin_head : self_margin_series self = Fin m :: rest.
Hypothesis margin_nonzero : ~ m == 0.

Lemma liquidation_value :
  liquidation self =
  Ok (map (fun l => fdiv (fsub (Fin m) l) (Fin m)) (self_liquidation_series self)).
Proof.
  unfold liquidation. rewrite margin_head. simpl.
  unfold div_scalar, scalar_sub. now rewrite map_map.
Qed.

Lemma insolvency_value :
  insolvency self =
  Ok (map (fun p => fdiv (fadd p (Fin m)) (Fin m)) (self_pnl_series self)).
Proof.
  unfold insolvency. rewrite margin_head. simpl.
  unfold div_scalar, add_scalar. now rewrite map_map.
Qed.

Lemma liquidation_at (lr : Series) (t : nat) (l : Q) :
  liquidation self = Ok lr ->
  nth_error (self_liquidation_series self) t = Some (Fin l) ->
  nth_error lr t = Some (Fin ((m - l) / m)).
Proof.
  rewrite liquidation_value. intros [= <-] Ht.
  rewrite nth_error_map, Ht. simpl. f_equal.
  now apply fdiv_fin.
Qed.

Lemma insolvency_at (ir : Series) (t : nat) (p : Q) :
  insolvency self = Ok ir ->
  nth_error (self_pnl_series self) t = Some (Fin p) ->
  nth_error ir t = Some (Fin ((p + m) / m)).
Proof.
  rewrite insolvency_value. intros [= <-] Ht.
  rewrite nth_error_map, Ht. simpl. f_equal.
  now apply fdiv_fin.
Qed.

End Derivation.

(** C2.  For an instance whose margin series starts with a finite non-zero
    value [m], the derivation returns, at every index [t], the liquidation
    ratio [(m - liquidationSeries[t]) / m] and the insolvency ratio
    [(pnlSeries[t] + m) / m]; and the instance built from the table of the
    worked example holds the ratios 0.10, 0.15, 0.20, 0.25, 0.30 and
    1.00, 0.95, 0.90, 0.85, 0.80. *)
Theorem derived_series_formulas :
  (forall (self : RiskMetrics) (m : Q) (rest : Series),
      self_margin_series self = Fin m :: rest ->
      ~ m == 0 ->
      exists lr ir,
        liquidation self = Ok lr /\
        insolvency self = Ok ir /\
        length lr = length (self_liquidation_series self) /\
        length ir = length (self_pnl_series self) /\
        (forall t l,
            nth_error (self_liquidation_series self) t = Some (Fin l) ->
            nth_error lr t = Some (Fin ((m - l) / m))) /\
        (forall t p,
            nth_error (self_pnl_series self) t = Some (Fin p) ->
            nth_error ir t = Some (Fin ((p + m) / m))))
  /\
  (exists self,
      example_instance = Ok self /\
      liquidation self = Ok (self_liquidation self) /\
      insolvency self = Ok (self_insolvency self) /\
      Forall2 feq (self_liquidation self)
        (map Fin [0.10; 0.15; 0.20; 0.25; 0.30]) /\
      Forall2 feq (self_insolvency self)
        (map Fin [1.00; 0.95; 0.90; 0.85; 0.80])).
Proof.
  split.
  - intros self m rest Hm Hnz.
    eexists; eexists.
    split; [exact (liquidation_value self m rest Hm) |].
    split; [exact (insolvency_value self m rest Hm) |].
    split; [apply length_map |].
    split; [apply length_map |].
    split; intros t v Ht.
    + eapply liquidation_at; eauto using liquidation_value.
    + eapply insolvency_at; eauto using insolvency_value.
  - eexists. split; [vm_compute; reflexivity |].
    split; [vm_compute; reflexivity |].
    split; [vm_compute; reflexivity |].
    split; apply forallb2_feq; vm_compute; reflexivity.
Qed.

Lemma derived_series_formulas_witness :
  exists lr ir,
    liquidation (mkRiskMetrics z_scores_table 2 [] (Fin 1000)
                   [Fin 90; Fin 85] [Fin 100; Fin 100] [Fin 0; Fin (-5)] [] [])
    = Ok lr /\
    insolvency (mkRiskMetrics z_scores_table 2 [] (Fin 1000)
                  [Fin 90; Fin 85] [Fin 100; Fin 100] [Fin 0; Fin (-5)] [] [])
    = Ok ir /\
    nth_error lr 1 = Some (Fin ((100 - 85) / 100)) /\
    nth_error ir 1 = Some (Fin ((-5 + 100) / 100)).
Proof.
  destruct (proj1 derived_series_formulas
              (mkRiskMetrics z_scores_table 2 [] (Fin 1000)
                 [Fin 90; Fin 85] [Fin 100; Fin 100] [Fin 0; Fin (-5)] [] [])
              100 [Fin 100] eq_refl)
    as (lr & ir & Hl & Hi & _ & _ & Hlt & Hit).
  - discriminate.
  - exists lr, ir. split; [exact Hl |]. split; [exact Hi |].
    split; [apply Hlt | apply Hit]; reflexivity.
Defined.

(** ** Construction and pool size *)

Lemma init_series (df : DataFrame) (notional : float64)
    (lc mc pc : string) (pool : option Z) (self : RiskMetrics) :
  __init__ df notional lc mc pc pool = Ok self ->
  df_getitem df lc = Ok (self_liquidation_series self) /\
  df_getitem df mc = Ok (self_margin_series self) /\
  df_getitem df pc = Ok (self_pnl_series self) /\
  self_z_scores self = z_scores_table /\
  self_notional self = notional.
Proof.
  unfold __init__.
  destruct pool as [n|];
    destruct (df_getitem df lc) as [ls|]; try discriminate;
    destruct (df_getitem df mc) as [ms|]; try discriminate;
    destruct (df_getitem df pc) as [ps|]; try discriminate;
    cbn [rbind];
    match goal with
    | |- context [liquidation ?s] => destruct (liquidation s); try discriminate
    end;
    cbn [rbind];
    match goal with
    | |- context [insolvency ?s] => destruct (insolvency s); try discriminate
    end;
    cbn [rbind]; intros [= <-]; simpl; auto.
Qed.

(** C9, on the code: built from the five-row table with [pool_size = 2], the
    instance keeps a two-row table in [self.df], but its three series still
    have all five entries, because they are read from the argument [df]. *)
Theorem pool_size_not_applied :
  exists self,
    __init__ example_df (Fin 1000) "liquidation" "margin" "pnl" (Some 2%Z)
    = Ok self /\
    self_pool_size self = 2%Z /\
    df_len (self_df self) = 2%nat /\
    self_liquidation_series self = map Fin [90; 85; 80; 75; 70] /\
    self_margin_series self = map Fin [100; 100; 100; 100; 100] /\
    self_pnl_series self = map Fin [0; -5; -10; -15; -20] /\
    self_liquidation_series self
    <> slice_to 2 (map Fin [90; 85; 80; 75; 70]).
Proof.
  eexists. split; [vm_compute; reflexivity |].
  repeat (split; [reflexivity |]).
  discriminate.
Qed.

(** ** Recommended leverage *)

(** C1, on the code: whatever the instance and the argument,
    [recommended_leverage] raises [TypeError], because it passes the keyword
    [time_horizon] to [leverages], which has no such parameter; no leverage
    is returned. *)
Theorem recommended_leverage_raises :
  forall (RT : Runtime) (time_horizon : float64) (w : World),
    recommended_leverage time_horizon w = (Raise TypeError, w).
Proof. intros RT th w. reflexivity. Qed.

(** ** Leverage conversion *)

Lemma iloc_last_app (s : Series) (x : float64) : iloc_last (s ++ [x]) = Ok x.
Proof. unfold iloc_last. now rewrite rev_unit. Qed.

(** C3.  Given finite value-at-risk estimates [lvar] and [ivar], a finite
    notional [n], a non-zero first liquidation sample [l0] and a non-zero
    last PnL sample [p], [leverages] returns
    [n * (1 - lvar) / l0] and [n * (ivar - 1) / p] and leaves the instance
    untouched. *)
Theorem leverages_formulas :
  forall (RT : Runtime) (w : World) (n lvar ivar l0 p : Q)
         (ltail pinit : Series),
    self_notional (w_self w) = Fin n ->
    self_liquidation_series (w_self w) = Fin l0 :: ltail ->
    self_pnl_series (w_self w) = pinit ++ [Fin p] ->
    ~ l0 == 0 ->
    ~ p == 0 ->
    leverages (Some (Fin lvar)) (Some (Fin ivar)) w
    = (Ok (Fin (n * (1 - lvar) / l0), Fin (n * (ivar - 1) / p)), w).
Proof.
  intros RT w n lvar ivar l0 p ltail pinit Hn Hl Hp Hl0 Hp0.
  unfold leverages, bind, ret, get_self, lift.
  rewrite Hn, Hl, Hp, iloc_last_app. cbn [iloc_first fst snd fmul fsub].
  now rewrite !fdiv_fin.
Qed.

Lemma leverages_formulas_witness :
  leverages (RT := small_runtime) (Some (Fin 0.05)) (Some (Fin 0.9))
    (mkWorld (RT := small_runtime)
       (mkRiskMetrics z_scores_table 5 example_df (Fin 1000)
          (map Fin [70; 75]) (map Fin [100; 100]) (map Fin [0; -20]) [] [])
       0%Z)
  = (Ok (Fin (1000 * (1 - 0.05) / 70), Fin (1000 * (0.9 - 1) / -20)),
     mkWorld (RT := small_runtime)
       (mkRiskMetrics z_scores_table 5 example_df (Fin 1000)
          (map Fin [70; 75]) (map Fin [100; 100]) (map Fin [0; -20]) [] [])
       0%Z).
Proof.
  apply (leverages_formulas small_runtime _ 1000 0.05 0.9 70 (-20)
           [Fin 75] [Fin 0]).
  - reflexivity.
  - reflexivity.
  - reflexivity.
  - discriminate.
  - discriminate.
Defined.

(** ** Confidence levels *)

(** C5.  On an instance built by [__init__], a confidence level other than
    95 and 99 makes [lvar_and_ivar] raise [KeyError], whether replicates are
    supplied or not; nothing is computed and the state is unchanged. *)
Theorem unsupported_alpha_raises :
  forall (RT : Runtime) (df : DataFrame) (notional : float64)
         (lc mc pc : string) (pool : option Z) (self : RiskMetrics)
         (rnd : py_state) (alpha : Z) (l_rep i_rep : option (list Series)),
    __init__ df notional lc mc pc pool = Ok self ->
    alpha <> 95%Z ->
    alpha <> 99%Z ->
    lvar_and_ivar alpha l_rep i_rep (mkWorld self rnd)
    = (Raise KeyError, mkWorld self rnd).
Proof.
  intros RT df notional lc mc pc pool self rnd alpha l_rep i_rep Hinit H95 H99.
  apply init_series in Hinit as (_ & _ & _ & Hz & _).
  unfold lvar_and_ivar, bind, get_self, lift. cbn [w_self].
  rewrite Hz. unfold z_scores_table, dict_get.
  destruct (Z.eqb_spec 95 alpha); [congruence |].
  destruct (Z.eqb_spec 99 alpha); [congruence |].
  reflexivity.
Qed.

Lemma unsupported_alpha_raises_witness :
  exists self,
    example_instance = Ok self /\
    lvar_and_ivar (RT := small_runtime) 90 None None
      (mkWorld (RT := small_runtime) self 0%Z)
    = (Raise KeyError, mkWorld (RT := small_runtime) self 0%Z).
Proof.
  eexists. split; [vm_compute; reflexivity |].
  eapply (unsupported_alpha_raises small_runtime example_df (Fin 1000)
            "liquidation" "margin" "pnl" None).
  - vm_compute; reflexivity.
  - discriminate.
  - discriminate.
Defined.

(** ** Block size *)

Lemma quot_nonneg_above_minus_den (a : Z) (d : positive) :
  (- Z.pos d < a)%Z -> (0 <= Z.quot a (Z.pos d))%Z.
Proof.
  intros H. destruct (Z.le_gt_cases 0 a) as [Ha | Ha].
  - apply Z.quot_pos; lia.
  - rewrite <- (Z.opp_involutive a), Z.quot_opp_l by lia.
    rewrite Z.quot_small by lia. lia.
Qed.

Lemma Qlt_minus_one (q : Q) : -1 < q -> (- Z.pos (Qden q) < Qnum q)%Z.
Proof. destruct q as [a d]. unfold Qlt. simpl. lia. Qed.

(** The claim as worded fails on a negative estimate: for the estimate -2
    the block size is -1. *)
Lemma block_size_of_negative_estimate :
  exists b, block_size_of (Fin (-2)) = Ok b /\ (b < 1)%Z.
Proof. exists (-1)%Z. split; [reflexivity | lia]. Qed.

(** C7, as amended.  For a finite estimate above -1, in particular for zero
    and for every non-negative estimate, [int(estimate) + 1] is an integer
    and it is at least 1. *)
Theorem block_size_of_positive :
  forall q : Q,
    -1 < q ->
    exists b, block_size_of (Fin q) = Ok b /\ (1 <= b)%Z.
Proof.
  intros q Hq. eexists. split; [reflexivity |].
  apply Qlt_minus_one, quot_nonneg_above_minus_den in Hq. lia.
Qed.

Lemma block_size_of_positive_witness :
  exists b, block_size_of (Fin 0) = Ok b /\ (1 <= b)%Z.
Proof. apply (block_size_of_positive 0). reflexivity. Defined.

(** ** Jitter *)

Lemma get_random_value (RT : Runtime) (w : World) :
  get_random w =
  (let (e, p1) := random_randint (-5) (-2) (w_random w) in
   let (r, p2) := random_random p1 in
   (Ok (Fin (jitter_value e r)), mkWorld (w_self w) p2)).
Proof.
  unfold get_random, bind, with_random, ret.
  destruct (random_randint (-5) (-2) (w_random w)) as [e p1]. cbn [w_random].
  now destruct (random_random p1) as [r p2].
Qed.

(** The claim as worded fails on its upper bound: the draws [exp = -2] and
    [r = 0.95] give the significand 0.955 and the offset 0.00955, above
    0.009. *)
Lemma jitter_value_above_9e_3 :
  (-5 <= -2 <= -2)%Z /\ 0 <= 0.95 /\ 0.95 < 1 /\
  ~ jitter_value (-2) 0.95 <= 0.009.
Proof.
  repeat split; try lia; try reflexivity; try discriminate.
  vm_compute. intros H. now apply H.
Qed.

(** C8, as amended.  For an exponent drawn in [-5, -2] and a draw [r] in
    [0, 1) (hence a significand in [0.1, 1.0)), the offset is strictly
    positive, at least 0.000001 and strictly below 0.01. *)
Theorem jitter_value_range :
  forall (exp : Z) (r : Q),
    (-5 <= exp <= -2)%Z ->
    0 <= r ->
    r < 1 ->
    0 < jitter_value exp r /\
    0.000001 <= jitter_value exp r /\
    jitter_value exp r < 0.01.
Proof.
  intros exp r He Hr0 Hr1. unfold jitter_value.
  assert (E : exp = (-5)%Z \/ exp = (-4)%Z \/ exp = (-3)%Z \/ exp = (-2)%Z)
    by lia.
  destruct E as [-> | [-> | [-> | ->]]].
  - setoid_replace (10 ^ (-5)) with 0.00001 by reflexivity. lra.
  - setoid_replace (10 ^ (-4)) with 0.0001 by reflexivity. lra.
  - setoid_replace (10 ^ (-3)) with 0.001 by reflexivity. lra.
  - setoid_replace (10 ^ (-2)) with 0.01 by reflexivity. lra.
Qed.

Lemma jitter_value_range_witness :
  0 < jitter_value (-3) 0.5 /\
  0.000001 <= jitter_value (-3) 0.5 /\
  jitter_value (-3) 0.5 < 0.01.
Proof.
  apply (jitter_value_range (-3) 0.5).
  - lia.
  - discriminate.
  - reflexivity.
Defined.

(** ** Mean and standard deviation *)

Lemma fadd_nan_r (x : float64) : fadd x NaN = NaN.
Proof. now destruct x. Qed.

Lemma fsum_from_nan (a : list float64) :
  fold_left (fun acc x => saturate (fadd acc x)) a NaN = NaN.
Proof. induction a as [|x a IH]; [reflexivity | exact IH]. Qed.

Lemma fsum_nan_from (a : list float64) (acc : float64) :
  In NaN a -> fold_left (fun acc x => saturate (fadd acc x)) a acc = NaN.
Proof.
  revert acc. induction a as [|x a IH]; intros acc H; [contradiction |].
  cbn [fold_left]. destruct H as [-> | H]; [| now apply IH].
  rewrite fadd_nan_r. apply fsum_from_nan.
Qed.

Lemma fsum_nan (a : list float64) : In NaN a -> fsum a = NaN.
Proof. apply fsum_nan_from. Qed.

Lemma np_mean_nan (a : list float64) : In NaN a -> np_mean a = NaN.
Proof. intros H. unfold np_mean. now rewrite (fsum_nan a H). Qed.






(** ** Value at risk *)

Section ValueAtRisk.

Context {RT : Runtime}.

Lemma lvar_and_ivar_supplied (w : World) (alpha : Z) (z : float64)
    (l_rep i_rep : list Series) :
  dict_get (self_z_scores (w_self w)) alpha = Ok z ->
  lvar_and_ivar alpha (Some l_rep) (Some i_rep) w =
  (Ok (fadd (fmul (fneg z) (np_std (map np_mean l_rep)))
            (np_mean (map np_mean l_rep)),
       fadd (fmul (fneg z) (np_std (map np_mean i_rep)))
            (np_mean (map np_mean i_rep))), w).
Proof.
  intros Hz. unfold lvar_and_ivar, bind, get_self, lift, ret.
  now rewrite Hz.
Qed.



End ValueAtRisk.




(** ** Replicates *)

Section Replicates.

Context {RT : Runtime}.

Lemma jitter_offsets (values : Series) (w : World) :
  jitter values w =
  (Ok (jittered values (fst (offsets (length values) (w_random w)))),
   mkWorld (w_self w) (snd (offsets (length values) (w_random w)))).
Proof.
  revert w. induction values as [|v values IH]; intros w.
  - now destruct w.
  - cbn [jitter length offsets]. unfold bind at 1.
    rewrite get_random_value.
    destruct (random_randint (-5) (-2) (w_random w)) as [e p1].
    destruct (random_random p1) as [r p2].
    unfold bind at 1. rewrite IH. cbn [w_self w_random].
    destruct (offsets (length values) p2) as [rest p3].
    reflexivity.
Qed.

Lemma offsets_length (n : nat) (p : py_state) :
  length (fst (offsets n p)) = n.
Proof.
  revert p. induction n as [|n IH]; intros p; [reflexivity |].
  cbn [offsets].
  destruct (random_randint (-5) (-2) p) as [e p1].
  destruct (random_random p1) as [r p2].
  specialize (IH p2). destruct (offsets n p2) as [rest p3].
  simpl in *. now rewrite IH.
Qed.

Lemma offsets_add (n m : nat) (p : py_state) :
  fst (offsets (n + m) p) =
  fst (offsets n p) ++ fst (offsets m (snd (offsets n p))).
Proof.
  revert p. induction n as [|n IH]; intros p; [reflexivity |].
  cbn [Nat.add offsets].
  destruct (random_randint (-5) (-2) p) as [e p1].
  destruct (random_random p1) as [r p2].
  specialize (IH p2).
  destruct (offsets (n + m) p2) as [all p4].
  destruct (offsets n p2) as [rest p3].
  simpl in *. now rewrite IH.
Qed.

(** What one call computes: the jitter is drawn for the liquidation series,
    then for the insolvency series, and the two bootstraps start from
    [RandomState(42)]. *)
Lemma generate_replicates_run (N : Z) (w : World) :
  generate_replicates N w =
  let self := drop_invalid (w_self w) in
  let ol := offsets (length (self_liquidation self)) (w_random w) in
  let oi := offsets (length (self_insolvency self)) (snd ol) in
  (resample_both (RandomState 42)
     (jittered (self_liquidation self) (fst ol))
     (jittered (self_insolvency self) (fst oi)) N,
   mkWorld self (snd oi)).
Proof.
  unfold generate_replicates, bind, update_self, get_self, lift.
  cbn [w_self w_random].
  rewrite jitter_offsets. cbn [w_self w_random].
  rewrite jitter_offsets. reflexivity.
Qed.

Lemma app_same_length {A} (a b c d : list A) :
  length a = length c -> a ++ b = c ++ d -> a = c /\ b = d.
Proof.
  revert c. induction a as [|x a IH]; intros [|y c] L H; try discriminate.
  - now split.
  - simpl in H. injection H as -> H. injection L as L.
    destruct (IH c L H) as [-> ->]. now split.
Qed.

Lemma dropna_idempotent (s : Series) : dropna (dropna s) = dropna s.
Proof.
  unfold dropna. induction s as [|x s IH]; [reflexivity |].
  simpl. destruct (negb (is_nan x)) eqn:E; [| exact IH].
  simpl. rewrite E. now f_equal.
Qed.

End Replicates.

(** C6.  Two invocations of [generate_replicates] with the same replicate
    count, on instances whose cleaned liquidation and insolvency series are
    the same, and for which Python's generator hands out the same jitter
    values, return identical results (the same replicate sets, or the same
    exception): the numpy generator is seeded afresh with 42 in each call,
    so nothing else enters the result. *)
Theorem generate_replicates_reproducible :
  forall (RT : Runtime) (N : Z) (w1 w2 : World),
    dropna (self_liquidation (w_self w1))
    = dropna (self_liquidation (w_self w2)) ->
    dropna (self_insolvency (w_self w1))
    = dropna (self_insolvency (w_self w2)) ->
    fst (offsets (jitter_count (w_self w1)) (w_random w1))
    = fst (offsets (jitter_count (w_self w2)) (w_random w2)) ->
    fst (generate_replicates N w1) = fst (generate_replicates N w2).
Proof.
  intros RT N w1 w2 Hl Hi Ho.
  rewrite !generate_replicates_run. cbn [fst].
  unfold jitter_count in Ho. rewrite !offsets_add in Ho.
  unfold drop_invalid, set_insolvency, set_liquidation.
  cbn [self_liquidation self_insolvency].
  apply app_same_length in Ho.
  - destruct Ho as [Ho1 Ho2]. rewrite <- Hl, <- Hi in *.
    now rewrite Ho1, Ho2.
  - rewrite !offsets_length. now rewrite Hl.
Qed.

Lemma generate_replicates_reproducible_witness :
  exists self,
    example_instance = Ok self /\
    w_random (snd (generate_replicates (RT := small_runtime) 3
                     (mkWorld (RT := small_runtime) self 0%Z))) = 20%Z /\
    fst (generate_replicates (RT := small_runtime) 3
           (mkWorld (RT := small_runtime) self 0%Z))
    = fst (generate_replicates (RT := small_runtime) 3
             (snd (generate_replicates (RT := small_runtime) 3
                     (mkWorld (RT := small_runtime) self 0%Z)))).
Proof.
  destruct example_instance as [self|] eqn:E; [| discriminate E].
  exists self. split; [reflexivity |].
  vm_compute in E. injection E as <-.
  split.
  - rewrite generate_replicates_run. vm_compute. reflexivity.
  - apply (generate_replicates_reproducible small_runtime 3).
    + rewrite generate_replicates_run. vm_compute. reflexivity.
    + rewrite generate_replicates_run. vm_compute. reflexivity.
    + rewrite generate_replicates_run. vm_compute. reflexivity.
Defined.

(** ** The generator shared by the two bootstraps *)

Section SharedStream.

Context {RT : Runtime}.

(** The insolvency bootstrap starts from the generator state the
    liquidation bootstrap leaves. *)
Lemma resample_both_run (rs : rng_state) (liq ins : Series) (N bl bi : Z) :
  block_length liq = Ok bl ->
  block_length ins = Ok bi ->
  resample_both rs liq ins N =
  (l <- bootstrap bl liq N rs ;;
   i <- bootstrap bi ins N (snd l) ;;
   Ok (fst l, fst i))%res.
Proof.
  unfold block_length, resample_both.
  destruct (optimal_block_length liq) as [tl|]; [| discriminate].
  destruct (optimal_block_length ins) as [ti|]; [| discriminate].
  cbn [rbind]. now intros -> ->.
Qed.

Lemma num_blocks_positive (L B : nat) :
  (1 <= L)%nat -> (1 <= B)%nat -> exists k, num_blocks L B = S k.
Proof.
  intros HL HB. unfold num_blocks.
  assert (H : (0 < (L + B - 1) / B)%nat) by (apply Nat.div_str_pos; lia).
  destruct ((L + B - 1) / B)%nat as [|k]; [lia | now exists k].
Qed.

Lemma resample_state (x : Series) (B : nat) (rs : rng_state) :
  snd (resample x B rs)
  = snd (draw_starts (num_blocks (length x) B) (Z.of_nat (length x)) rs).
Proof.
  unfold resample. now destruct (draw_starts _ _ rs).
Qed.

(** The first sample of a replicate is the sample of the series at the
    first start index drawn. *)
Lemma resample_head (x : Series) (B : nat) (rs : rng_state) :
  x <> [] -> (1 <= B)%nat ->
  exists tl,
    fst (resample x B rs)
    = nth (Z.to_nat (fst (randint (Z.of_nat (length x)) rs)
                     mod Z.of_nat (length x))) x NaN :: tl.
Proof.
  intros Hx HB. unfold resample.
  destruct (num_blocks_positive (length x) B) as [k Hk];
    [destruct x; [now elim Hx | simpl; lia] | exact HB |].
  rewrite Hk. cbn [draw_starts].
  destruct (randint (Z.of_nat (length x)) rs) as [d s1].
  destruct (draw_starts k (Z.of_nat (length x)) s1) as [rest s2].
  cbn [fst flat_map]. destruct B as [|b]; [lia |].
  unfold wrap_block at 1. cbn [seq map app].
  destruct x as [|x0 x]; [now elim Hx |].
  cbn [length firstn]. change (Z.of_nat 0) with 0%Z. rewrite Z.add_0_r.
  eexists. reflexivity.
Qed.

Lemma bootstrap_one (B : Z) (x : Series) (rs : rng_state) :
  (1 <= B)%Z -> x <> [] ->
  bootstrap B x 1 rs
  = Ok ([fst (resample x (Z.to_nat B) rs)], snd (resample x (Z.to_nat B) rs)).
Proof.
  intros HB Hx. unfold bootstrap. cbn [Z.leb Z.compare].
  destruct (Z.leb_spec B 0) as [C | _]; [lia |].
  destruct x as [|x0 x]; [now elim Hx |]. cbn [length Nat.eqb orb].
  change (Z.to_nat 1) with 1%nat. cbn [replicates].
  now destruct (resample (x0 :: x) (Z.to_nat B) rs).
Qed.

Lemma fin_eq (a b : Q) : Fin a = Fin b -> a == b.
Proof. now intros [= ->]. Qed.

Lemma map_fin_inj (a b : list Q) : map Fin a = map Fin b -> a = b.
Proof.
  revert b. induction a as [|x a IH]; intros [|y b] H; try discriminate H.
  - reflexivity.
  - cbn [map] in H. injection H as H1 H2. f_equal; [exact H1 | now apply IH].
Qed.

Lemma liquidation_for_length (xs os : list Q) :
  length os = length xs -> length (liquidation_for xs os) = length xs.
Proof.
  revert os. induction xs as [|x xs IH]; intros [|o os] L;
    try discriminate L; [reflexivity |].
  cbn [liquidation_for length]. f_equal. apply IH. now injection L.
Qed.

Lemma pnl_for_length (xs os : list Q) :
  length os = length xs -> length (pnl_for xs os) = length xs.
Proof.
  revert os. induction xs as [|x xs IH]; intros [|o os] L;
    try discriminate L; [reflexivity |].
  cbn [pnl_for length]. f_equal. apply IH. now injection L.
Qed.

(** The jittered liquidation ratios of [liquidation_for xs os] have the
    values [xs], and likewise for [pnl_for]. *)
Lemma liquidation_for_jittered (xs os : list Q) :
  length os = length xs ->
  Forall2 feq
    (jittered (map (fun l => Fin ((1 - l) / 1)) (liquidation_for xs os)) os)
    (map Fin xs).
Proof.
  revert os. induction xs as [|x xs IH]; intros [|o os] L;
    try discriminate L; [constructor |].
  cbn [liquidation_for map jittered fadd]. constructor.
  - unfold feq. field.
  - apply IH. now injection L.
Qed.

Lemma pnl_for_jittered (xs os : list Q) :
  length os = length xs ->
  Forall2 feq
    (jittered (map (fun p => Fin ((p + 1) / 1)) (pnl_for xs os)) os)
    (map Fin xs).
Proof.
  revert os. induction xs as [|x xs IH]; intros [|o os] L;
    try discriminate L; [constructor |].
  cbn [pnl_for map jittered fadd]. constructor.
  - unfold feq. field.
  - apply IH. now injection L.
Qed.

Lemma liquidation_for_values (xs ys os : list Q) :
  length os = length xs -> length ys = length xs ->
  liquidation_for xs os = liquidation_for ys os ->
  Forall2 feq (map Fin xs) (map Fin ys).
Proof.
  revert ys os. induction xs as [|x xs IH]; intros [|y ys] [|o os] L L' H;
    try discriminate L; try discriminate L'; [constructor |].
  cbn [liquidation_for] in H. cbn [map].
  assert (E : 1 - (x - o) == 1 - (y - o) /\
              liquidation_for xs os = liquidation_for ys os).
  { split; [| congruence].
    replace (1 - (x - o)) with (1 - (y - o)) by congruence. reflexivity. }
  destruct E as [E1 E2]. constructor.
  - unfold feq. lra.
  - apply (IH ys os); [now injection L | now injection L' | exact E2].
Qed.

Lemma Forall2_feq_length (js ys : Series) :
  Forall2 feq js ys -> length js = length ys.
Proof. induction 1; simpl; congruence. Qed.

Lemma Forall2_feq_nth (js : Series) (xs : list Q) (k : nat) :
  Forall2 feq js (map Fin xs) -> (k < length xs)%nat ->
  exists j, nth k js NaN = Fin j /\ j == nth k xs 0.
Proof.
  revert js k. induction xs as [|x xs IH]; intros js k H Hk;
    [simpl in Hk; lia |].
  inversion H as [|j js' y ys Hj Hrest]; subst.
  destruct k as [|k].
  - destruct j as [q| | |]; try contradiction. now exists q.
  - cbn [nth]. apply IH; [exact Hrest | simpl in Hk; lia].
Qed.

Lemma dropna_finite_map {A} (f : A -> Q) (l : list A) :
  dropna (map (fun x => Fin (f x)) l) = map (fun x => Fin (f x)) l.
Proof.
  unfold dropna. induction l as [|x l IH]; [reflexivity |].
  cbn [map filter is_nan negb]. now f_equal.
Qed.

Lemma unit_margin_init (ls ps : list Q) :
  ls <> [] ->
  __init__ (unit_margin_df ls ps) (Fin 1000) "liquidation" "margin" "pnl" None
  = Ok (unit_margin_instance ls ps).
Proof.
  intros Hne. destruct ls as [|l ls]; [now elim Hne |].
  unfold __init__, unit_margin_df. cbn [df_getitem String.eqb Ascii.eqb
    Bool.eqb rbind df_len].
  unfold liquidation, insolvency, set_liquidation, set_insolvency.
  cbn [self_margin_series self_liquidation_series self_pnl_series map
       iloc_first rbind].
  unfold unit_margin_instance, unit_margin_df, div_scalar, scalar_sub,
    add_scalar.
  cbn [self_z_scores self_pool_size self_df self_notional
       self_liquidation_series self_margin_series self_pnl_series
       self_liquidation self_insolvency map].
  rewrite !map_map. reflexivity.
Qed.

Lemma drop_invalid_unit_margin (ls ps : list Q) :
  drop_invalid (unit_margin_instance ls ps) = unit_margin_instance ls ps.
Proof.
  unfold drop_invalid, set_insolvency, set_liquidation, unit_margin_instance.
  cbn [self_liquidation self_insolvency self_z_scores self_pool_size self_df
       self_notional self_liquidation_series self_margin_series
       self_pnl_series].
  rewrite (dropna_finite_map (fun l => (1 - l) / 1)).
  rewrite (dropna_finite_map (fun p => (p + 1) / 1)).
  reflexivity.
Qed.

(** One call on a unit-margin instance: the jitter, then the bootstraps. *)
Lemma generate_replicates_unit_margin (ls ps osl osi : list Q)
    (rnd pl pi : py_state) (N : Z) :
  offsets (length ls) rnd = (osl, pl) ->
  offsets (length ps) pl = (osi, pi) ->
  generate_replicates N (mkWorld (unit_margin_instance ls ps) rnd) =
  (resample_both (RandomState 42)
     (jittered (map (fun l => Fin ((1 - l) / 1)) ls) osl)
     (jittered (map (fun p => Fin ((p + 1) / 1)) ps) osi) N,
   mkWorld (unit_margin_instance ls ps) pi).
Proof.
  intros Hl Hi. rewrite generate_replicates_run. cbn [w_self w_random].
  rewrite drop_invalid_unit_margin.
  cbn [unit_margin_instance self_liquidation self_insolvency].
  rewrite !length_map, Hl. cbn [fst snd]. rewrite Hi. reflexivity.
Qed.

(** What the call returns on such an instance when the two jittered series
    have the values [xl] and [xi]: one replicate each, the insolvency one
    drawn from the state the liquidation bootstrap leaves. *)
Lemma generate_replicates_one (ls ps xl xi osl osi : list Q)
    (rnd pl pi : py_state) (Bl Bi : Z) :
  estimate_respects_values ->
  xl <> [] ->
  offsets (length ls) rnd = (osl, pl) ->
  offsets (length ps) pl = (osi, pi) ->
  Forall2 feq (jittered (map (fun l => Fin ((1 - l) / 1)) ls) osl)
    (map Fin xl) ->
  Forall2 feq (jittered (map (fun p => Fin ((p + 1) / 1)) ps) osi)
    (map Fin xi) ->
  length xi = length xl ->
  block_length (map Fin xl) = Ok Bl -> (1 <= Bl)%Z ->
  block_length (map Fin xi) = Ok Bi -> (1 <= Bi)%Z ->
  exists l_rep hd tl j,
    generate_replicates 1 (mkWorld (unit_margin_instance ls ps) rnd)
    = (Ok (l_rep, [hd :: tl]), mkWorld (unit_margin_instance ls ps) pi) /\
    hd = Fin j /\
    j == nth (Z.to_nat
                (next_start (length xl)
                   (num_blocks (length xl) (Z.to_nat Bl))
                 mod Z.of_nat (length xl))) xi 0.
Proof.
  intros Hresp Hne Hol Hoi Fl Fi Hlen HBl HBl1 HBi HBi1.
  rewrite (generate_replicates_unit_margin ls ps osl osi rnd pl pi 1 Hol Hoi).
  set (jl := jittered (map (fun l => Fin ((1 - l) / 1)) ls) osl) in *.
  set (ji := jittered (map (fun p => Fin ((p + 1) / 1)) ps) osi) in *.
  assert (Ljl : length jl = length xl)
    by (rewrite (Forall2_feq_length _ _ Fl); apply length_map).
  assert (Lji : length ji = length xl)
    by (rewrite (Forall2_feq_length _ _ Fi), length_map; exact Hlen).
  assert (Hpos : (0 < length xl)%nat)
    by (destruct xl; [now elim Hne | simpl; lia]).
  assert (Njl : jl <> []) by (intros E; rewrite E in Ljl; simpl in Ljl; lia).
  assert (Nji : ji <> []) by (intros E; rewrite E in Lji; simpl in Lji; lia).
  rewrite (resample_both_run _ jl ji 1 Bl Bi);
    [| now rewrite (Hresp _ _ Fl) | now rewrite (Hresp _ _ Fi)].
  rewrite (bootstrap_one Bl jl _ HBl1 Njl). cbn [rbind fst snd].
  rewrite (bootstrap_one Bi ji _ HBi1 Nji). cbn [rbind fst snd].
  destruct (resample_head ji (Z.to_nat Bi) (snd (resample jl (Z.to_nat Bl)
              (RandomState 42))) Nji) as [tl Htl]; [lia |].
  rewrite Htl, resample_state, Lji, Ljl.
  fold (next_start (length xl) (num_blocks (length xl) (Z.to_nat Bl))).
  set (d := next_start (length xl) (num_blocks (length xl) (Z.to_nat Bl))).
  destruct (Forall2_feq_nth ji xi (Z.to_nat (d mod Z.of_nat (length xl))) Fi)
    as (j & Hj & Hjv).
  { rewrite Hlen.
    pose proof (Z.mod_pos_bound d (Z.of_nat (length xl))). lia. }
  exists [fst (resample jl (Z.to_nat Bl) (RandomState 42))].
  exists (nth (Z.to_nat (d mod Z.of_nat (length xl))) ji NaN), tl, j.
  split; [reflexivity |]. split; [exact Hj | exact Hjv].
Qed.

End SharedStream.

Lemma map_const_same_length {A B} (c : B) (a b : list A) :
  length a = length b -> map (fun _ => c) a = map (fun _ => c) b.
Proof.
  revert b. induction a as [|x a IH]; intros [|y b] L; try discriminate L;
    [reflexivity |].
  cbn [map]. f_equal. apply IH. now injection L.
Qed.

Lemma offsets_exact (RT : Runtime) (n : nat) (p : py_state) :
  exists os p', offsets n p = (os, p') /\ length os = n.
Proof.
  pose proof (offsets_length n p) as L.
  destruct (offsets n p) as [os p']. now exists os, p'.
Qed.

(** C10.  The two bootstraps of one call draw from the same generator, the
    insolvency one after the liquidation one.  Take two series [xa] and
    [xb] of the same length (for arch, of eight samples or more) on which
    the estimator returns block lengths, the estimate depending on the
    values of the samples only, and suppose the start index that
    [RandomState(42)] hands out after the draws of a bootstrap of [xa] and
    after the draws of a bootstrap of [xb] select samples of [xa] with
    different values.  Then, for every state of Python's generator, there
    are two tables with the same margin and PnL columns (hence the same
    insolvency series) and different liquidation columns, for which
    [generate_replicates(1)] consumes the same jitter and returns different
    insolvency replicates. *)
Theorem insolvency_replicates_depend_on_liquidation :
  forall (RT : Runtime) (rnd : py_state) (xa xb : list Q) (Ba Bb : Z),
    estimate_respects_values ->
    xa <> [] ->
    length xb = length xa ->
    block_length (map Fin xa) = Ok Ba -> (1 <= Ba)%Z ->
    block_length (map Fin xb) = Ok Bb -> (1 <= Bb)%Z ->
    ~ nth (Z.to_nat
             (next_start (length xa) (num_blocks (length xa) (Z.to_nat Ba))
              mod Z.of_nat (length xa))) xa 0
      == nth (Z.to_nat
                (next_start (length xa) (num_blocks (length xa) (Z.to_nat Bb))
                 mod Z.of_nat (length xa))) xa 0 ->
    exists (df_a df_b : DataFrame) (self_a self_b : RiskMetrics)
           (l_a i_a l_b i_b : list Series) (w_a w_b : World),
      __init__ df_a (Fin 1000) "liquidation" "margin" "pnl" None = Ok self_a /\
      __init__ df_b (Fin 1000) "liquidation" "margin" "pnl" None = Ok self_b /\
      self_margin_series self_a = self_margin_series self_b /\
      self_pnl_series self_a = self_pnl_series self_b /\
      self_insolvency self_a = self_insolvency self_b /\
      self_liquidation_series self_a <> self_liquidation_series self_b /\
      generate_replicates 1 (mkWorld self_a rnd) = (Ok (l_a, i_a), w_a) /\
      generate_replicates 1 (mkWorld self_b rnd) = (Ok (l_b, i_b), w_b) /\
      w_random w_a = w_random w_b /\
      i_a <> i_b.
Proof.
  intros RT rnd xa xb Ba Bb Hresp Hne Hlen HBa HBa1 HBb HBb1 Hsel.
  destruct (offsets_exact RT (length xa) rnd) as (osl & pl & Hol & Losl).
  destruct (offsets_exact RT (length xa) pl) as (osi & pi & Hoi & Losi).
  set (la := liquidation_for xa osl). set (lb := liquidation_for xb osl).
  set (ps := pnl_for xa osi).
  assert (Lla : length la = length xa) by now apply liquidation_for_length.
  assert (Llb : length lb = length xa).
  { unfold lb. rewrite liquidation_for_length; congruence. }
  assert (Lps : length ps = length xa) by now apply pnl_for_length.
  assert (Hpos : (0 < length xa)%nat)
    by (destruct xa; [now elim Hne | simpl; lia]).
  assert (Nla : la <> []) by (intros E; rewrite E in Lla; simpl in Lla; lia).
  assert (Nlb : lb <> []) by (intros E; rewrite E in Llb; simpl in Llb; lia).
  assert (Nxb : xb <> []) by (intros E; rewrite E in Hlen; simpl in Hlen; lia).
  destruct (generate_replicates_one la ps xa xa osl osi rnd pl pi Ba Ba)
    as (l_a & hd_a & tl_a & j_a & Ga & Ha & Va); try assumption;
    try (rewrite ?Lla, ?Lps; assumption); try reflexivity.
  { apply liquidation_for_jittered. exact Losl. }
  { apply pnl_for_jittered. exact Losi. }
  destruct (generate_replicates_one lb ps xb xa osl osi rnd pl pi Bb Ba)
    as (l_b & hd_b & tl_b & j_b & Gb & Hb & Vb); try assumption;
    try (rewrite ?Llb, ?Lps; assumption); try (symmetry; assumption).
  { apply liquidation_for_jittered. congruence. }
  { apply pnl_for_jittered. exact Losi. }
  rewrite Hlen in Vb.
  exists (unit_margin_df la ps), (unit_margin_df lb ps),
         (unit_margin_instance la ps), (unit_margin_instance lb ps).
  exists l_a, [hd_a :: tl_a], l_b, [hd_b :: tl_b].
  do 2 eexists.
  split; [now apply unit_margin_init |].
  split; [now apply unit_margin_init |].
  split.
  { cbn [unit_margin_instance self_margin_series].
    apply map_const_same_length. congruence. }
  split; [reflexivity |]. split; [reflexivity |].
  split.
  { cbn [unit_margin_instance self_liquidation_series]. intros H.
    apply map_fin_inj in H. unfold la, lb in H.
    apply liquidation_for_values in H; [| exact Losl | exact Hlen].
    apply Hsel. rewrite (Hresp _ _ H) in HBa.
    assert (Ba = Bb) by congruence. subst Bb. reflexivity. }
  split; [exact Ga |]. split; [exact Gb |].
  split; [reflexivity |].
  intros H. injection H as H _. apply Hsel.
  rewrite <- Va, <- Vb. apply fin_eq. congruence.
Qed.

Lemma flt_feq (u u' v v' : float64) :
  feq u u' -> feq v v' -> flt u v = flt u' v'.
Proof.
  destruct u, u'; simpl; try contradiction;
    destruct v, v'; simpl; try contradiction; try reflexivity.
  intros Hu Hv. unfold Qltb. f_equal. now apply Qleb_comp.
Qed.

Lemma rising_estimate_respects_values :
  estimate_respects_values (RT := small_runtime).
Proof.
  intros x y H. unfold block_length. cbn [optimal_block_length small_runtime].
  destruct H as [|u u' x y Hu H]; [reflexivity |].
  destruct H as [|v v' x y Hv H]; [reflexivity |].
  cbn [rising_estimate]. now rewrite (flt_feq u u' v v' Hu Hv).
Qed.

Lemma insolvency_replicates_depend_on_liquidation_witness :
  exists (df_a df_b : DataFrame) (self_a self_b : RiskMetrics)
         (l_a i_a l_b i_b : list Series)
         (w_a w_b : World (RT := small_runtime)),
    __init__ df_a (Fin 1000) "liquidation" "margin" "pnl" None = Ok self_a /\
    __init__ df_b (Fin 1000) "liquidation" "margin" "pnl" None = Ok self_b /\
    self_margin_series self_a = self_margin_series self_b /\
    self_pnl_series self_a = self_pnl_series self_b /\
    self_insolvency self_a = self_insolvency self_b /\
    self_liquidation_series self_a <> self_liquidation_series self_b /\
    generate_replicates (RT := small_runtime) 1
      (mkWorld (RT := small_runtime) self_a 0%Z) = (Ok (l_a, i_a), w_a) /\
    generate_replicates (RT := small_runtime) 1
      (mkWorld (RT := small_runtime) self_b 0%Z) = (Ok (l_b, i_b), w_b) /\
    w_random w_a = w_random w_b /\
    i_a <> i_b.
Proof.
  apply (insolvency_replicates_depend_on_liquidation small_runtime 0%Z
           [0; 1; 2; 3; 4; 5; 6; 7] [1; 0; 2; 3; 4; 5; 6; 7] 2%Z 1%Z).
  - exact rising_estimate_respects_values.
  - discriminate.
  - reflexivity.
  - reflexivity.
  - lia.
  - reflexivity.
  - lia.
  - vm_compute. discriminate.
Defined.

(** * Further properties of the code *)

(** ** Construction *)

Lemma df_getitem_error (df : DataFrame) (label : string) (e : exn) :
  df_getitem df label = Raise e -> e = KeyError /\ ~ In label (map fst df).
Proof.
  induction df as [|[c s] df IH]; simpl.
  - intros [= <-]. split; [reflexivity | tauto].
  - destruct (String.eqb_spec c label) as [-> | Hc]; [discriminate |].
    intros H. destruct (IH H) as [-> Hn]. split; [reflexivity |].
    intros [Hc' | Hin]; [now apply Hc | now apply Hn].
Qed.

Lemma df_getitem_missing (df : DataFrame) (label : string) :
  ~ In label (map fst df) -> df_getitem df label = Raise KeyError.
Proof.
  induction df as [|[c s] df IH]; simpl; [reflexivity |].
  intros H. destruct (String.eqb_spec c label) as [-> | Hc].
  - exfalso. apply H. now left.
  - apply IH. intros Hin. apply H. now right.
Qed.

(** X1.  When one of the three column labels is not a column of the table,
    [__init__] raises [KeyError], with or without a pool size. *)
Theorem init_missing_column :
  forall (df : DataFrame) (notional : float64) (lc mc pc : string)
         (pool : option Z),
    ~ In lc (map fst df) \/ ~ In mc (map fst df) \/ ~ In pc (map fst df) ->
    __init__ df notional lc mc pc pool = Raise KeyError.
Proof.
  intros df notional lc mc pc pool H. unfold __init__.
  destruct (df_getitem df lc) as [ls | e] eqn:El.
  2: { apply df_getitem_error in El as [-> _]. now destruct pool. }
  destruct (df_getitem df mc) as [ms | e] eqn:Em.
  2: { apply df_getitem_error in Em as [-> _]. now destruct pool. }
  destruct (df_getitem df pc) as [ps | e] eqn:Ep.
  2: { apply df_getitem_error in Ep as [-> _]. now destruct pool. }
  exfalso. destruct H as [H | [H | H]]; apply df_getitem_missing in H;
    congruence.
Qed.

Lemma init_missing_column_witness :
  __init__ example_df (Fin 1000) "liquidation" "margin" "fees" (Some 3%Z)
  = Raise KeyError.
Proof.
  apply init_missing_column. right. right.
  simpl. intros [H | [H | [H | H]]]; try discriminate H; exact H.
Defined.

(** X2.  When the three columns exist and the margin column has no row,
    [__init__] raises [IndexError]: the baseline [margin_series.iloc[0]]
    does not exist. *)
Theorem init_empty_margin :
  forall (df : DataFrame) (notional : float64) (lc mc pc : string)
         (pool : option Z) (ls ps : Series),
    df_getitem df lc = Ok ls ->
    df_getitem df mc = Ok [] ->
    df_getitem df pc = Ok ps ->
    __init__ df notional lc mc pc pool = Raise IndexError.
Proof.
  intros df notional lc mc pc pool ls ps Hl Hm Hp. unfold __init__.
  destruct pool; rewrite Hl, Hm, Hp; reflexivity.
Qed.

Lemma init_empty_margin_witness :
  __init__ [("margin"%string, []); ("liquidation"%string, []);
            ("pnl"%string, [])]
    (Fin 1000) "liquidation" "margin" "pnl" None
  = Raise IndexError.
Proof.
  apply (init_empty_margin _ _ _ _ _ _ [] []); reflexivity.
Defined.

(** X3.  When no label is repeated in the table, the three columns exist
    and the margin column starts with [m0], whatever its value (zero
    included), [__init__] returns an instance; it holds the three columns
    in full, the two derived series have the lengths of the liquidation and
    PnL columns, and their samples are [(m0 - l) / m0] and [(p + m0) / m0]
    in float arithmetic. *)
Theorem init_succeeds :
  forall (df : DataFrame) (notional : float64) (lc mc pc : string)
         (pool : option Z) (ls ms ps : Series) (m0 : float64),
    NoDup (map fst df) ->
    df_getitem df lc = Ok ls ->
    df_getitem df mc = Ok (m0 :: ms) ->
    df_getitem df pc = Ok ps ->
    exists self,
      __init__ df notional lc mc pc pool = Ok self /\
      self_liquidation_series self = ls /\
      self_margin_series self = m0 :: ms /\
      self_pnl_series self = ps /\
      self_liquidation self = map (fun l => fdiv (fsub m0 l) m0) ls /\
      self_insolvency self = map (fun p => fdiv (fadd p m0) m0) ps /\
      length (self_liquidation self) = length ls /\
      length (self_insolvency self) = length ps.
Proof.
  intros df notional lc mc pc pool ls ms ps m0 _ Hl Hm Hp. unfold __init__.
  destruct pool; rewrite Hl, Hm, Hp; cbn [rbind];
    unfold liquidation, insolvency, set_liquidation, set_insolvency;
    cbn [self_margin_series self_liquidation_series self_pnl_series
         iloc_first rbind];
    eexists; (split; [reflexivity |]);
    cbn [self_liquidation_series self_margin_series self_pnl_series
         self_liquidation self_insolvency];
    unfold div_scalar, scalar_sub, add_scalar; rewrite !map_map;
    repeat (split; [reflexivity |]); rewrite !length_map; now split.
Qed.

Lemma init_succeeds_witness :
  exists self,
    __init__ [("margin"%string, [Fin 0; Fin 5]);
              ("liquidation"%string, [Fin 3; Fin 0]);
              ("pnl"%string, [Fin (-1); Fin 2])]
      (Fin 1000) "liquidation" "margin" "pnl" None = Ok self /\
    self_liquidation self = [NInf; NaN] /\
    self_insolvency self = [NInf; PInf].
Proof.
  destruct (init_succeeds
              [("margin"%string, [Fin 0; Fin 5]);
               ("liquidation"%string, [Fin 3; Fin 0]);
               ("pnl"%string, [Fin (-1); Fin 2])]
              (Fin 1000) "liquidation" "margin" "pnl" None
              [Fin 3; Fin 0] [Fin 5] [Fin (-1); Fin 2] (Fin 0))
    as (self & Hi & _ & _ & _ & Hl & Hs & _); try reflexivity.
  - repeat constructor; simpl; intuition discriminate.
  - exists self. split; [exact Hi |]. split; [exact Hl | exact Hs].
Defined.

Lemma df_getitem_iloc (n : Z) (df : DataFrame) (label : string) :
  df_getitem (df_iloc_to n df) label =
  (s <- df_getitem df label ;; Ok (slice_to n s))%res.
Proof.
  induction df as [|[c s] df IH]; simpl; [reflexivity |].
  now destruct (String.eqb c label).
Qed.

Lemma slice_to_length {A} (n : Z) (l : list A) :
  length (slice_to n l) =
  Z.to_nat (if (0 <=? n)%Z
            then Z.min n (Z.of_nat (length l))
            else Z.max 0 (Z.of_nat (length l) + n)).
Proof.
  unfold slice_to. destruct (Z.leb_spec 0 n); rewrite length_firstn; lia.
Qed.

Lemma init_table (df : DataFrame) (notional : float64)
    (lc mc pc : string) (pool : option Z) (self : RiskMetrics) :
  __init__ df notional lc mc pc pool = Ok self ->
  self_pool_size self
  = match pool with Some n => n | None => Z.of_nat (df_len df) end /\
  self_df self
  = match pool with Some n => df_iloc_to n df | None => df end.
Proof.
  unfold __init__.
  destruct pool as [n|];
    destruct (df_getitem df lc) as [ls|]; try discriminate;
    destruct (df_getitem df mc) as [ms|]; try discriminate;
    destruct (df_getitem df pc) as [ps|]; try discriminate;
    cbn [rbind];
    match goal with
    | |- context [liquidation ?s] => destruct (liquidation s); try discriminate
    end;
    cbn [rbind];
    match goal with
    | |- context [insolvency ?s] => destruct (insolvency s); try discriminate
    end;
    cbn [rbind]; intros [= <-]; simpl; auto.
Qed.

(** X4.  The table an instance keeps in [self.df].  Without a pool size it
    is the whole table and [self.pool_size] is its number of rows.  With a
    pool size [n], [self.pool_size] is [n] whatever the table, and every
    column of [self.df] is the slice [[:n]] of the column: its first
    [min(n, len)] rows for [n >= 0], all but its last [-n] rows for
    [n < 0]. *)
Theorem init_pool_size_table :
  forall (df : DataFrame) (notional : float64) (lc mc pc : string)
         (pool : option Z) (self : RiskMetrics),
    __init__ df notional lc mc pc pool = Ok self ->
    (pool = None ->
     self_pool_size self = Z.of_nat (df_len df) /\ self_df self = df) /\
    (forall n, pool = Some n ->
     self_pool_size self = n /\
     forall label s,
       df_getitem df label = Ok s ->
       exists s',
         df_getitem (self_df self) label = Ok s' /\
         s' = slice_to n s /\
         ((0 <= n)%Z -> s' = firstn (Z.to_nat n) s /\
                        length s' = Nat.min (Z.to_nat n) (length s)) /\
         ((n < 0)%Z -> length s' = (length s - Z.to_nat (- n))%nat)).
Proof.
  intros df notional lc mc pc pool self Hinit.
  apply init_table in Hinit as [Hsize Hdf].
  split.
  - intros ->. now split.
  - intros n ->. split; [exact Hsize |].
    intros label s Hs. exists (slice_to n s).
    rewrite Hdf, df_getitem_iloc, Hs. cbn [rbind].
    split; [reflexivity |]. split; [reflexivity |].
    split; intros Hn.
    + unfold slice_to. destruct (Z.leb_spec 0 n); [| lia].
      split; [reflexivity | apply length_firstn].
    + rewrite slice_to_length. destruct (Z.leb_spec 0 n); lia.
Qed.

Lemma init_pool_size_table_witness :
  exists self s',
    __init__ example_df (Fin 1000) "liquidation" "margin" "pnl" (Some 7%Z)
    = Ok self /\
    self_pool_size self = 7%Z /\
    df_getitem (self_df self) "pnl" = Ok s' /\
    length s' = 5%nat.
Proof.
  destruct (__init__ example_df (Fin 1000) "liquidation" "margin" "pnl"
              (Some 7%Z)) as [self|] eqn:E; [| discriminate E].
  destruct (init_pool_size_table example_df (Fin 1000)
              "liquidation" "margin" "pnl" (Some 7%Z) self E) as [_ H].
  destruct (H 7%Z eq_refl) as [Hsize Hcol].
  destruct (Hcol "pnl"%string (map Fin [0; -5; -10; -15; -20]) eq_refl)
    as (s' & Hs & _ & Hpos & _).
  exists self, s'. split; [reflexivity |]. split; [exact Hsize |].
  split; [exact Hs |].
  destruct Hpos as [_ L]; [lia | exact L].
Defined.

(** ** Zero baseline *)

Lemma fdiv_zero_not_finite (y : float64) (m : Q) :
  m == 0 -> is_finite (fdiv y (Fin m)) = false.
Proof.
  intros H. apply Qeq_alt in H.
  destruct y as [a| | |]; unfold fdiv; rewrite ?H; try reflexivity.
  now destruct (a ?= 0).
Qed.

(** X5.  With a finite zero as first margin sample the derivation does not
    raise: it returns the two series, and none of their samples is finite
    (each is an infinity or NaN). *)
Theorem zero_baseline_not_finite :
  forall (self : RiskMetrics) (m : Q) (rest : Series),
    self_margin_series self = Fin m :: rest ->
    m == 0 ->
    exists lr ir,
      liquidation self = Ok lr /\
      insolvency self = Ok ir /\
      length lr = length (self_liquidation_series self) /\
      length ir = length (self_pnl_series self) /\
      Forall (fun x => is_finite x = false) lr /\
      Forall (fun x => is_finite x = false) ir.
Proof.
  intros self m rest Hm Hz.
  rewrite (liquidation_value self m rest Hm).
  rewrite (insolvency_value self m rest Hm).
  do 2 eexists. split; [reflexivity |]. split; [reflexivity |].
  rewrite !length_map. split; [reflexivity |]. split; [reflexivity |].
  split; apply Forall_map, Forall_forall; intros x _;
    now apply fdiv_zero_not_finite.
Qed.

Lemma zero_baseline_not_finite_witness :
  exists lr ir,
    liquidation (mkRiskMetrics z_scores_table 2 [] (Fin 1000)
                   [Fin 3; Fin 0] [Fin 0; Fin 1] [Fin (-1); Fin 2] [] [])
    = Ok lr /\
    insolvency (mkRiskMetrics z_scores_table 2 [] (Fin 1000)
                  [Fin 3; Fin 0] [Fin 0; Fin 1] [Fin (-1); Fin 2] [] [])
    = Ok ir /\
    Forall (fun x => is_finite x = false) lr /\
    Forall (fun x => is_finite x = false) ir.
Proof.
  destruct (zero_baseline_not_finite
              (mkRiskMetrics z_scores_table 2 [] (Fin 1000)
                 [Fin 3; Fin 0] [Fin 0; Fin 1] [Fin (-1); Fin 2] [] [])
              0 [Fin 1] eq_refl (Qeq_refl 0))
    as (lr & ir & Hl & Hi & _ & _ & Fl & Fi).
  exists lr, ir. repeat split; assumption.
Defined.

(** ** Cleaning and jitter *)

Lemma dropna_no_nan (s : Series) : ~ In NaN (dropna s).
Proof.
  unfold dropna. intros H. apply filter_In in H as [_ H]. discriminate H.
Qed.

(** X6.  Whether it returns replicates or raises, [generate_replicates]
    leaves the instance with its two derived series cleaned of NaN (the
    order of the other samples kept) and everything else as it was; a
    second call leaves that instance as it is. *)
Theorem generate_replicates_cleans_instance :
  forall (RT : Runtime) (N N' : Z) (w : World),
    let self := w_self w in
    let self' := w_self (snd (generate_replicates N w)) in
    self_liquidation self' = dropna (self_liquidation self) /\
    self_insolvency self' = dropna (self_insolvency self) /\
    ~ In NaN (self_liquidation self') /\
    ~ In NaN (self_insolvency self') /\
    self_z_scores self' = self_z_scores self /\
    self_pool_size self' = self_pool_size self /\
    self_df self' = self_df self /\
    self_notional self' = self_notional self /\
    self_liquidation_series self' = self_liquidation_series self /\
    self_margin_series self' = self_margin_series self /\
    self_pnl_series self' = self_pnl_series self /\
    w_self (snd (generate_replicates N' (snd (generate_replicates N w))))
    = self'.
Proof.
  intros RT N N' w self self'. subst self self'.
  rewrite !generate_replicates_run. cbn [snd w_self].
  unfold drop_invalid, set_insolvency, set_liquidation.
  cbn [self_liquidation self_insolvency self_z_scores self_pool_size self_df
       self_notional self_liquidation_series self_margin_series
       self_pnl_series].
  repeat (split; [reflexivity || apply dropna_no_nan |]).
  now rewrite !dropna_idempotent.
Qed.

Lemma jitter_value_bounds (exp : Z) (r : Q) :
  (-5 <= exp <= -2)%Z -> 0 <= r -> r < 1 ->
  0.000001 <= jitter_value exp r /\ jitter_value exp r < 0.01.
Proof.
  intros He Hr0 Hr1. unfold jitter_value.
  assert (E : exp = (-5)%Z \/ exp = (-4)%Z \/ exp = (-3)%Z \/ exp = (-2)%Z)
    by lia.
  destruct E as [-> | [-> | [-> | ->]]].
  - setoid_replace (10 ^ (-5)) with 0.00001 by reflexivity. lra.
  - setoid_replace (10 ^ (-4)) with 0.0001 by reflexivity. lra.
  - setoid_replace (10 ^ (-3)) with 0.001 by reflexivity. lra.
  - setoid_replace (10 ^ (-2)) with 0.01 by reflexivity. lra.
Qed.

Lemma offsets_bounds (RT : Runtime) (n : nat) (p : py_state) :
  random_in_range ->
  Forall (fun o => 0.000001 <= o /\ o < 0.01) (fst (offsets n p)).
Proof.
  intros [Hint Hunit]. revert p. induction n as [|n IH]; intros p.
  - constructor.
  - cbn [offsets]. specialize (Hint p).
    destruct (random_randint (-5) (-2) p) as [e p1]. specialize (Hunit p1).
    destruct (random_random p1) as [r p2]. specialize (IH p2).
    destruct (offsets n p2) as [rest p3]. cbn [fst] in *.
    constructor; [| exact IH].
    now apply jitter_value_bounds.
Qed.

Lemma jittered_length (values : Series) (os : list Q) :
  length os = length values -> length (jittered values os) = length values.
Proof.
  revert os. induction values as [|v values IH]; intros [|o os] L;
    try discriminate L; [reflexivity |].
  simpl. f_equal. apply IH. now injection L.
Qed.

Lemma jittered_at (values : Series) (os : list Q) (t : nat) (x : float64) :
  length os = length values ->
  nth_error values t = Some x ->
  exists o, nth_error os t = Some o /\
            nth_error (jittered values os) t = Some (fadd x (Fin o)).
Proof.
  revert os t. induction values as [|v values IH]; intros [|o os] t L Ht;
    try discriminate L; [destruct t; discriminate Ht |].
  destruct t as [|t]; simpl in *.
  - injection Ht as ->. now exists o.
  - apply IH; [now injection L | exact Ht].
Qed.

(** X7.  Provided Python's generator keeps its documented ranges, [jitter]
    never raises and leaves the instance alone; the jittered series has the
    length of the series, a finite sample stays finite and is not lowered,
    and a sample that is not finite is unchanged. *)
Theorem jitter_raises_each_sample :
  forall (RT : Runtime) (values : Series) (w : World),
    random_in_range ->
    exists js w',
      jitter values w = (Ok js, w') /\
      w_self w' = w_self w /\
      length js = length values /\
      (forall t v,
          nth_error values t = Some (Fin v) ->
          exists j, nth_error js t = Some (Fin j) /\ v <= j) /\
      (forall t x,
          nth_error values t = Some x -> is_finite x = false ->
          nth_error js t = Some x).
Proof.
  intros RT values w Hrange. rewrite jitter_offsets.
  pose proof (offsets_length (length values) (w_random w)) as L.
  pose proof (offsets_bounds RT (length values) (w_random w) Hrange) as B.
  do 2 eexists. split; [reflexivity |]. split; [reflexivity |].
  split; [now apply jittered_length |].
  split.
  - intros t v Ht.
    destruct (jittered_at values _ t (Fin v) L Ht) as (o & Ho & Hj).
    rewrite Forall_forall in B.
    destruct (B o (nth_error_In _ _ Ho)) as [B1 B2].
    exists (v + o). split; [exact Hj |]. lra.
  - intros t x Ht Hx.
    destruct (jittered_at values _ t x L Ht) as (o & _ & Hj).
    rewrite Hj. now destruct x.
Qed.

Lemma small_runtime_in_range : random_in_range (RT := small_runtime).
Proof.
  split; intros p; cbn [random_randint random_random small_runtime
                         counter_randint counter_random fst].
  - pose proof (Z.mod_pos_bound p (-2 - -5 + 1) eq_refl). lia.
  - pose proof (Z.mod_pos_bound p 20 eq_refl) as H.
    unfold Qle, Qlt, Qdiv, Qmult, Qinv, inject_Z. simpl. lia.
Qed.

Lemma jitter_raises_each_sample_witness :
  exists js w',
    jitter (RT := small_runtime) [Fin 0.1; PInf]
      (mkWorld (RT := small_runtime) (pair_instance 0 0 0 0) 0%Z)
    = (Ok js, w') /\
    length js = 2%nat /\
    exists j, nth_error js 0 = Some (Fin j) /\ 0.1 <= j.
Proof.
  destruct (jitter_raises_each_sample small_runtime [Fin 0.1; PInf]
              (mkWorld (RT := small_runtime) (pair_instance 0 0 0 0) 0%Z)
              small_runtime_in_range)
    as (js & w' & Hj & _ & Hlen & Hfin & _).
  exists js, w'. split; [exact Hj |]. split; [exact Hlen |].
  exact (Hfin 0%nat 0.1 eq_refl).
Defined.

(** ** Non-finite values in the estimates *)

Lemma np_mean_poisoned (reps : list Series) :
  reps = [] \/ (exists rep, In rep reps /\ (rep = [] \/ In NaN rep)) ->
  np_mean (map np_mean reps) = NaN.
Proof.
  intros [-> | (rep & Hin & Hrep)]; [reflexivity |].
  apply np_mean_nan, in_map_iff. exists rep. split; [| exact Hin].
  destruct Hrep as [-> | Hnan]; [reflexivity | now apply np_mean_nan].
Qed.

(** X8.  On an instance built by [__init__] and for the levels 95 and 99,
    [lvar_and_ivar] does not raise on degenerate replicates: when the
    supplied liquidation replicates are an empty list, or one of them is
    empty or contains NaN, the liquidation estimate is NaN; and likewise
    for the insolvency replicates and estimate. *)
Theorem var_nan_propagates :
  forall (RT : Runtime) (df : DataFrame) (notional : float64)
         (lc mc pc : string) (pool : option Z) (self : RiskMetrics)
         (rnd : py_state) (alpha : Z) (l_rep i_rep : list Series),
    __init__ df notional lc mc pc pool = Ok self ->
    alpha = 95%Z \/ alpha = 99%Z ->
    exists l_var i_var,
      lvar_and_ivar alpha (Some l_rep) (Some i_rep) (mkWorld self rnd)
      = (Ok (l_var, i_var), mkWorld self rnd) /\
      (l_rep = [] \/
       (exists rep, In rep l_rep /\ (rep = [] \/ In NaN rep)) ->
       l_var = NaN) /\
      (i_rep = [] \/
       (exists rep, In rep i_rep /\ (rep = [] \/ In NaN rep)) ->
       i_var = NaN).
Proof.
  intros RT df notional lc mc pc pool self rnd alpha l_rep i_rep Hinit Ha.
  apply init_series in Hinit as (_ & _ & _ & Hz & _).
  assert (Hd : exists z, dict_get (self_z_scores self) alpha = Ok z).
  { rewrite Hz. destruct Ha as [-> | ->]; eexists; reflexivity. }
  destruct Hd as [z Hd].
  do 2 eexists. split; [apply lvar_and_ivar_supplied; exact Hd |].
  split; intros H; rewrite (np_mean_poisoned _ H); apply fadd_nan_r.
Qed.

Lemma var_nan_propagates_witness :
  exists self l_var i_var,
    example_instance = Ok self /\
    lvar_and_ivar (RT := small_runtime) 99
      (Some [[Fin 1; Fin 2]; [Fin 3; NaN]]) (Some [])
      (mkWorld (RT := small_runtime) self 0%Z)
    = (Ok (l_var, i_var), mkWorld (RT := small_runtime) self 0%Z) /\
    l_var = NaN /\ i_var = NaN.
Proof.
  destruct example_instance as [self|] eqn:E; [| discriminate E].
  destruct (var_nan_propagates small_runtime example_df (Fin 1000)
              "liquidation" "margin" "pnl" None self 0%Z 99
              [[Fin 1; Fin 2]; [Fin 3; NaN]] [] E (or_intror eq_refl))
    as (l_var & i_var & Hv & Hl & Hi).
  exists self, l_var, i_var. split; [reflexivity |]. split; [exact Hv |].
  split.
  - apply Hl. right. exists [Fin 3; NaN]. split; [simpl; auto |].
    right. simpl. auto.
  - apply Hi. now left.
Defined.

(** ** Block size *)

Lemma py_int_floor (q : Q) :
  0 <= q -> py_int (Fin q) = Ok (Qfloor q).
Proof.
  intros H. destruct q as [a d]. unfold py_int, Qfloor. cbn [Qnum Qden].
  f_equal. apply Z.quot_div_nonneg; [| lia].
  unfold Qle in H. simpl in H. lia.
Qed.

(** X9.  For a finite non-negative estimate the block size is the smallest
    integer strictly above it: [b - 1 <= estimate < b], so a whole-number
    estimate [k] gives [k + 1]. *)
Theorem block_size_of_floor :
  forall q : Q,
    0 <= q ->
    exists b,
      block_size_of (Fin q) = Ok b /\
      inject_Z b - 1 <= q /\ q < inject_Z b.
Proof.
  intros q Hq. unfold block_size_of. rewrite (py_int_floor q Hq).
  eexists. split; [reflexivity |].
  pose proof (Qfloor_le q) as H1. pose proof (Qlt_floor q) as H2.
  rewrite inject_Z_plus in H2 |- *.
  change (inject_Z 1) with 1 in H2 |- *. split; lra.
Qed.

Lemma block_size_of_floor_witness :
  exists b,
    block_size_of (Fin 3) = Ok b /\ inject_Z b - 1 <= 3 /\ 3 < inject_Z b.
Proof. apply (block_size_of_floor 3). discriminate. Defined.

(** X10.  When the block-length estimate of the jittered liquidation series
    is NaN or an infinity (and the estimate of the insolvency series is
    returned), [generate_replicates] raises: [ValueError] for NaN,
    [OverflowError] for an infinity, from [int(time_delta_l)]. *)
Theorem generate_replicates_rejects_estimate :
  forall (RT : Runtime) (N : Z) (w : World) (td ti : float64),
    let self := w_self w in
    let ol := offsets (length (dropna (self_liquidation self)))
                (w_random w) in
    let oi := offsets (length (dropna (self_insolvency self))) (snd ol) in
    optimal_block_length
      (jittered (dropna (self_liquidation self)) (fst ol)) = Ok td ->
    optimal_block_length
      (jittered (dropna (self_insolvency self)) (fst oi)) = Ok ti ->
    is_finite td = false ->
    fst (generate_replicates N w)
    = Raise (if is_nan td then ValueError else OverflowError).
Proof.
  intros RT N w td ti self ol oi Hl Hi Hf. subst self ol oi.
  rewrite generate_replicates_run. cbn [fst].
  unfold drop_invalid, set_insolvency, set_liquidation.
  cbn [self_liquidation self_insolvency]. unfold resample_both.
  rewrite Hl, Hi. cbn [rbind].
  destruct td; try discriminate Hf; reflexivity.
Qed.

Lemma generate_replicates_rejects_estimate_witness :
  fst (generate_replicates (RT := unbounded_estimate_runtime) 5
         (mkWorld (RT := unbounded_estimate_runtime)
            (pair_instance 0 0 0 0) 0%Z))
  = Raise OverflowError.
Proof.
  apply (generate_replicates_rejects_estimate unbounded_estimate_runtime
           5 _ PInf PInf); reflexivity.
Defined.

(** ** Leverage bounds *)

(** X11.  A zero first liquidation sample does not make [leverages] raise:
    with finite estimates and notional it returns, and the liquidation
    bound is then an infinity or NaN; likewise the insolvency bound for a
    zero last PnL sample. *)
Theorem leverages_zero_denominator :
  forall (RT : Runtime) (w : World) (n lvar ivar l0 p : Q)
         (ltail pinit : Series),
    self_notional (w_self w) = Fin n ->
    self_liquidation_series (w_self w) = Fin l0 :: ltail ->
    self_pnl_series (w_self w) = pinit ++ [Fin p] ->
    l0 == 0 \/ p == 0 ->
    exists l_lev i_lev,
      leverages (Some (Fin lvar)) (Some (Fin ivar)) w
      = (Ok (l_lev, i_lev), w) /\
      (l0 == 0 -> is_finite l_lev = false) /\
      (p == 0 -> is_finite i_lev = false).
Proof.
  intros RT w n lvar ivar l0 p ltail pinit Hn Hl Hp _.
  unfold leverages, bind, ret, get_self, lift.
  rewrite Hn, Hl, Hp, iloc_last_app. cbn [iloc_first fst snd].
  do 2 eexists. split; [reflexivity |].
  split; apply fdiv_zero_not_finite.
Qed.

Lemma leverages_zero_denominator_witness :
  exists l_lev i_lev,
    leverages (RT := small_runtime) (Some (Fin 0.05)) (Some (Fin 0.9))
      (mkWorld (RT := small_runtime) (pair_instance 0 70 0 (-20)) 0%Z)
    = (Ok (l_lev, i_lev),
       mkWorld (RT := small_runtime) (pair_instance 0 70 0 (-20)) 0%Z) /\
    is_finite l_lev = false.
Proof.
  destruct (leverages_zero_denominator small_runtime
              (mkWorld (RT := small_runtime) (pair_instance 0 70 0 (-20)) 0%Z)
              1000 0.05 0.9 0 (-20) [Fin 70] [Fin 0]
              eq_refl eq_refl eq_refl (or_introl (Qeq_refl 0)))
    as (l_lev & i_lev & H & Hl & _).
  exists l_lev, i_lev. split; [exact H |]. apply Hl. reflexivity.
Defined.

Lemma leverages_value (RT : Runtime) (w : World) (n lvar ivar l0 p : Q)
    (ltail pinit : Series) :
  self_notional (w_self w) = Fin n ->
  self_liquidation_series (w_self w) = Fin l0 :: ltail ->
  self_pnl_series (w_self w) = pinit ++ [Fin p] ->
  ~ l0 == 0 ->
  ~ p == 0 ->
  leverages (Some (Fin lvar)) (Some (Fin ivar)) w
  = (Ok (Fin (n * (1 - lvar) / l0), Fin (n * (ivar - 1) / p)), w).
Proof.
  intros Hn Hl Hp Hl0 Hp0.
  unfold leverages, bind, ret, get_self, lift.
  rewrite Hn, Hl, Hp, iloc_last_app. cbn [iloc_first fst snd fmul fsub].
  now rewrite !fdiv_fin.
Qed.

Lemma Qmult_le_nonneg_l (n a b : Q) : 0 <= n -> a <= b -> n * a <= n * b.
Proof.
  intros Hn Hab. rewrite !(Qmult_comm n). now apply Qmult_le_compat_r.
Qed.

Lemma Qinv_neg (p : Q) : p < 0 -> / p < 0.
Proof.
  intros H. destruct p as [[|a|a] d]; unfold Qlt in *; simpl in *; lia.
Qed.

(** X12.  For a non-negative notional, a positive first liquidation sample
    and a negative last PnL sample, both leverage bounds are non-increasing
    in the estimates: lower value-at-risk estimates give leverage bounds
    that are at least as large. *)
Theorem leverages_antitone :
  forall (RT : Runtime) (w : World) (n l0 p lv1 lv2 iv1 iv2 : Q)
         (ltail pinit : Series),
    self_notional (w_self w) = Fin n ->
    self_liquidation_series (w_self w) = Fin l0 :: ltail ->
    self_pnl_series (w_self w) = pinit ++ [Fin p] ->
    0 <= n -> 0 < l0 -> p < 0 ->
    lv1 <= lv2 -> iv1 <= iv2 ->
    exists a1 b1 a2 b2,
      leverages (Some (Fin lv1)) (Some (Fin iv1)) w
      = (Ok (Fin a1, Fin b1), w) /\
      leverages (Some (Fin lv2)) (Some (Fin iv2)) w
      = (Ok (Fin a2, Fin b2), w) /\
      a2 <= a1 /\ b2 <= b1.
Proof.
  intros RT w n l0 p lv1 lv2 iv1 iv2 ltail pinit Hn Hl Hp Hn0 Hl0 Hp0 Hlv Hiv.
  assert (Nl : ~ l0 == 0) by lra. assert (Np : ~ p == 0) by lra.
  rewrite (leverages_value RT w n lv1 iv1 l0 p ltail pinit Hn Hl Hp Nl Np).
  rewrite (leverages_value RT w n lv2 iv2 l0 p ltail pinit Hn Hl Hp Nl Np).
  do 4 eexists. split; [reflexivity |]. split; [reflexivity |].
  pose proof (Qinv_lt_0_compat l0 Hl0) as Il.
  pose proof (Qinv_neg p Hp0) as Ip.
  unfold Qdiv. split.
  - apply Qmult_le_compat_r; [| lra].
    apply Qmult_le_nonneg_l; lra.
  - setoid_replace (n * (iv2 - 1) * / p) with (n * (1 - iv2) * - / p) by ring.
    setoid_replace (n * (iv1 - 1) * / p) with (n * (1 - iv1) * - / p) by ring.
    apply Qmult_le_compat_r; [| lra].
    apply Qmult_le_nonneg_l; lra.
Qed.

Lemma leverages_antitone_witness :
  exists a1 b1 a2 b2,
    leverages (RT := small_runtime) (Some (Fin 0.03)) (Some (Fin 0.8))
      (mkWorld (RT := small_runtime) (pair_instance 70 75 0 (-20)) 0%Z)
    = (Ok (Fin a1, Fin b1),
       mkWorld (RT := small_runtime) (pair_instance 70 75 0 (-20)) 0%Z) /\
    leverages (RT := small_runtime) (Some (Fin 0.05)) (Some (Fin 0.9))
      (mkWorld (RT := small_runtime) (pair_instance 70 75 0 (-20)) 0%Z)
    = (Ok (Fin a2, Fin b2),
       mkWorld (RT := small_runtime) (pair_instance 70 75 0 (-20)) 0%Z) /\
    a2 <= a1 /\ b2 <= b1.
Proof.
  apply (leverages_antitone small_runtime
           (mkWorld (RT := small_runtime) (pair_instance 70 75 0 (-20)) 0%Z)
           1000 70 (-20) 0.03 0.05 0.8 0.9 [Fin 75] [Fin 0]);
    try reflexivity; discriminate.
Defined.

(** ** Normalisation (run_simulator.py) *)

Section Normalise.

Import run_simulator.

Lemma fold_fmax_finite (qs : list Q) (acc : Q) :
  exists m,
    fold_left fmax (map Fin qs) (Fin acc) = Fin m /\
    In m (acc :: qs) /\ (forall x, In x (acc :: qs) -> x <= m).
Proof.
  revert acc. induction qs as [|q qs IH]; intros acc.
  - exists acc. split; [reflexivity |]. split; [now left |].
    intros x [<- | []]. apply Qle_refl.
  - cbn [map fold_left]. unfold fmax at 2. cbn [fle].
    destruct (Qle_bool acc q) eqn:E.
    + apply Qle_bool_iff in E.
      destruct (IH q) as (m & Hm & Hin & Hub). exists m.
      split; [exact Hm |]. split.
      * destruct Hin as [<- | Hin]; [right; now left | right; now right].
      * intros x [<- | [<- | Hx]].
        -- apply Qle_trans with q; [exact E | apply Hub; now left].
        -- apply Hub. now left.
        -- apply Hub. now right.
    + assert (Hlt : q < acc).
      { apply Qnot_le_lt. intros H. apply Qle_bool_iff in H. congruence. }
      destruct (IH acc) as (m & Hm & Hin & Hub). exists m.
      split; [exact Hm |]. split.
      * destruct Hin as [<- | Hin]; [now left | right; now right].
      * intros x [<- | [<- | Hx]].
        -- apply Hub. now left.
        -- apply Qle_trans with acc; [now apply Qlt_le_weak | apply Hub; now left].
        -- apply Hub. now right.
Qed.

Lemma fold_fmin_finite (qs : list Q) (acc : Q) :
  exists m,
    fold_left fmin (map Fin qs) (Fin acc) = Fin m /\
    In m (acc :: qs) /\ (forall x, In x (acc :: qs) -> m <= x).
Proof.
  revert acc. induction qs as [|q qs IH]; intros acc.
  - exists acc. split; [reflexivity |]. split; [now left |].
    intros x [<- | []]. apply Qle_refl.
  - cbn [map fold_left]. unfold fmin at 2. cbn [fle].
    destruct (Qle_bool acc q) eqn:E.
    + apply Qle_bool_iff in E.
      destruct (IH acc) as (m & Hm & Hin & Hlb). exists m.
      split; [exact Hm |]. split.
      * destruct Hin as [<- | Hin]; [now left | right; now right].
      * intros x [<- | [<- | Hx]].
        -- apply Hlb. now left.
        -- apply Qle_trans with acc; [apply Hlb; now left | exact E].
        -- apply Hlb. now right.
    + assert (Hlt : q < acc).
      { apply Qnot_le_lt. intros H. apply Qle_bool_iff in H. congruence. }
      destruct (IH q) as (m & Hm & Hin & Hlb). exists m.
      split; [exact Hm |]. split.
      * destruct Hin as [<- | Hin]; [right; now left | right; now right].
      * intros x [<- | [<- | Hx]].
        -- apply Qle_trans with q; [apply Hlb; now left | now apply Qlt_le_weak].
        -- apply Hlb. now left.
        -- apply Hlb. now right.
Qed.

(** The extrema of a non-empty array of finite values. *)
Lemma extrema_finite (q : Q) (qs : list Q) :
  exists lo hi,
    np_min (map Fin (q :: qs)) = Ok (Fin lo) /\
    np_max (map Fin (q :: qs)) = Ok (Fin hi) /\
    In lo (q :: qs) /\ In hi (q :: qs) /\
    (forall x, In x (q :: qs) -> lo <= x /\ x <= hi).
Proof.
  destruct (fold_fmin_finite qs q) as (lo & Hlo & Ilo & Llo).
  destruct (fold_fmax_finite qs q) as (hi & Hhi & Ihi & Lhi).
  exists lo, hi. cbn [map np_min np_max]. rewrite Hlo, Hhi.
  repeat (split; [reflexivity || assumption |]).
  intros x Hx. split; [now apply Llo | now apply Lhi].
Qed.

End Normalise.

Section NormaliseProperties.

Import run_simulator.

Lemma normalise_finite (q : Q) (qs : list Q) (lo hi : Q) :
  np_min (map Fin (q :: qs)) = Ok (Fin lo) ->
  np_max (map Fin (q :: qs)) = Ok (Fin hi) ->
  normalise (map Fin (q :: qs)) =
  if Qeq_bool hi lo
  then Fail (Exception
    "ERROR: minimum and maximum values coincide in array normalisation. Check inputs!")
  else Return (map (fun x => Fin ((x - lo) / (hi - lo))) (q :: qs)).
Proof.
  intros Hlo Hhi. unfold normalise. rewrite Hlo, Hhi. cbn [builtin fne feqb].
  destruct (Qeq_bool hi lo) eqn:E; cbn [negb]; [reflexivity |].
  f_equal. rewrite !map_map. apply map_ext. intros x. cbn [fsub].
  apply fdiv_fin. intros H.
  apply Qeq_bool_neq in E. apply E. lra.
Qed.

(** X13.  [normalise] raises [ValueError] on an empty array (it has no
    maximum), and the generic exception of the source on a non-empty array
    of finite values that are all equal, a single value included. *)
Theorem normalise_constant_raises :
  normalise [] = Fail (Builtin ValueError) /\
  forall (q : Q) (qs : list Q),
    (forall x, In x qs -> x == q) ->
    normalise (map Fin (q :: qs)) =
    Fail (Exception
      "ERROR: minimum and maximum values coincide in array normalisation. Check inputs!").
Proof.
  split; [reflexivity |].
  intros q qs Hconst.
  destruct (extrema_finite q qs) as (lo & hi & Hlo & Hhi & Ilo & Ihi & _).
  rewrite (normalise_finite q qs lo hi Hlo Hhi).
  assert (Hall : forall x, In x (q :: qs) -> x == q).
  { intros x [<- | Hx]; [reflexivity | now apply Hconst]. }
  assert (E : Qeq_bool hi lo = true).
  { apply Qeq_bool_iff. rewrite (Hall lo Ilo), (Hall hi Ihi). reflexivity. }
  now rewrite E.
Qed.

Lemma normalise_constant_raises_witness :
  normalise (map Fin [0.5; 1 # 2; 2 # 4]) =
  Fail (Exception
    "ERROR: minimum and maximum values coincide in array normalisation. Check inputs!").
Proof.
  apply (proj2 normalise_constant_raises 0.5 [1 # 2; 2 # 4]).
  intros x [<- | [<- | []]]; reflexivity.
Defined.

(** X14.  On a non-empty array of finite values that are not all equal and
    of which no two differ by the overflow threshold of float64 or more,
    [normalise] returns an array of the same length; with [lo] and [hi] the
    least and the greatest value, the sample [x] becomes
    [(x - lo) / (hi - lo)], which lies in [0, 1]; some sample becomes 0 and
    some sample becomes 1. *)
Theorem normalise_range :
  forall (q : Q) (qs : list Q),
    (exists x y, In x (q :: qs) /\ In y (q :: qs) /\ ~ x == y) ->
    (forall x y, In x (q :: qs) -> In y (q :: qs) ->
                 x - y < overflow_threshold) ->
    exists (r : list float64) (lo hi : Q),
      normalise (map Fin (q :: qs)) = Return r /\
      length r = length (q :: qs) /\
      In lo (q :: qs) /\ In hi (q :: qs) /\ lo < hi /\
      (forall x, In x (q :: qs) -> lo <= x /\ x <= hi) /\
      (forall t x,
          nth_error (q :: qs) t = Some x ->
          exists v, nth_error r t = Some (Fin v) /\
                    v == (x - lo) / (hi - lo) /\ 0 <= v /\ v <= 1) /\
      (exists t v, nth_error r t = Some (Fin v) /\ v == 0) /\
      (exists t v, nth_error r t = Some (Fin v) /\ v == 1).
Proof.
  intros q qs (x & y & Hx & Hy & Hxy) _.
  destruct (extrema_finite q qs) as (lo & hi & Hlo & Hhi & Ilo & Ihi & Hb).
  assert (Hlt : lo < hi).
  { destruct (Hb x Hx) as [X1 X2]. destruct (Hb y Hy) as [Y1 Y2].
    apply Qnot_le_lt. intros H. apply Hxy. lra. }
  assert (E : Qeq_bool hi lo = false).
  { apply not_true_iff_false. intros H. apply Qeq_bool_iff in H. lra. }
  exists (map (fun x => Fin ((x - lo) / (hi - lo))) (q :: qs)), lo, hi.
  split; [rewrite (normalise_finite q qs lo hi Hlo Hhi); now rewrite E |].
  split; [apply length_map |].
  repeat (split; [assumption |]).
  assert (Hat : forall t z, nth_error (q :: qs) t = Some z ->
                nth_error (map (fun x => Fin ((x - lo) / (hi - lo))) (q :: qs)) t
                = Some (Fin ((z - lo) / (hi - lo)))).
  { intros t z Ht. now rewrite nth_error_map, Ht. }
  split; [| split].
  - intros t z Ht. exists ((z - lo) / (hi - lo)).
    split; [now apply Hat |]. split; [reflexivity |].
    destruct (Hb z (nth_error_In _ _ Ht)) as [Z1 Z2].
    split.
    + apply Qle_shift_div_l; lra.
    + apply Qle_shift_div_r; lra.
  - apply In_nth_error in Ilo as [t Ht].
    exists t, ((lo - lo) / (hi - lo)). split; [now apply Hat |].
    field. lra.
  - apply In_nth_error in Ihi as [t Ht].
    exists t, ((hi - lo) / (hi - lo)). split; [now apply Hat |].
    field. lra.
Qed.

Lemma normalise_range_witness :
  exists (r : list float64) (lo hi : Q),
    normalise (map Fin [3; 1; 2]) = Return r /\
    length r = 3%nat /\ lo < hi /\
    (exists t v, nth_error r t = Some (Fin v) /\ v == 0) /\
    (exists t v, nth_error r t = Some (Fin v) /\ v == 1).
Proof.
  destruct (normalise_range 3 [1; 2]) as (r & lo & hi & H).
  - exists 3, 1. split; [now left |]. split; [right; now left | discriminate].
  - intros x y [<- | [<- | [<- | []]]] [<- | [<- | [<- | []]]];
      vm_compute; reflexivity.
  - destruct H as (Hr & Hlen & _ & _ & Hlt & _ & _ & H0 & H1).
    exists r, lo, hi. repeat split; assumption.
Defined.

End NormaliseProperties.

Section NormaliseInvariance.

Import run_simulator.

Lemma fmax_nan_l (x : float64) : fmax NaN x = NaN.
Proof. reflexivity. Qed.

Lemma fmin_nan_l (x : float64) : fmin NaN x = NaN.
Proof. reflexivity. Qed.

Lemma fold_fmax_nan (a : list float64) (acc : float64) :
  acc = NaN \/ In NaN a -> fold_left fmax a acc = NaN.
Proof.
  revert acc. induction a as [|x a IH]; intros acc H.
  - destruct H as [-> | []]. reflexivity.
  - cbn [fold_left]. apply IH.
    destruct H as [-> | [-> | H]]; [left; reflexivity | left | now right].
    now destruct acc.
Qed.

Lemma fold_fmin_nan (a : list float64) (acc : float64) :
  acc = NaN \/ In NaN a -> fold_left fmin a acc = NaN.
Proof.
  revert acc. induction a as [|x a IH]; intros acc H.
  - destruct H as [-> | []]. reflexivity.
  - cbn [fold_left]. apply IH.
    destruct H as [-> | [-> | H]]; [left; reflexivity | left | now right].
    now destruct acc.
Qed.

(** X15.  An array that contains NaN is not rejected, even when all its
    samples are equal: [normalise] returns an array of the same length in
    which every sample is NaN. *)
Theorem normalise_nan :
  forall a : list float64,
    In NaN a ->
    normalise a = Return (map (fun _ => NaN) a).
Proof.
  intros a H. unfold normalise.
  assert (Hmax : np_max a = Ok NaN).
  { destruct a as [|x a]; [contradiction |]. cbn [np_max]. f_equal.
    apply fold_fmax_nan. destruct H as [-> | H]; auto. }
  assert (Hmin : np_min a = Ok NaN).
  { destruct a as [|x a]; [contradiction |]. cbn [np_min]. f_equal.
    apply fold_fmin_nan. destruct H as [-> | H]; auto. }
  rewrite Hmax, Hmin. cbn [builtin fne]. f_equal.
  rewrite map_map. apply map_ext. intros x. now destruct x.
Qed.

Lemma normalise_nan_witness :
  normalise [Fin 1; NaN; Fin 1] = Return [NaN; NaN; NaN].
Proof.
  apply (normalise_nan [Fin 1; NaN; Fin 1]). right. now left.
Defined.

End NormaliseInvariance.
